(** * WhisperKit sidecar: protocol loop and transcription engine

    A shallow embedding of [whisperkit-sidecar/Sources/WhisperKitSidecar/main.swift]
    and the properties of its line protocol, model lifecycle and raw PCM
    decoding.

    Conventions of the embedding:
    - a Swift [String] is the list of its Unicode scalar values;
    - a [Float] is its 32-bit pattern, an integer in [0, 2^32);
    - the engine actor's stored property and everything outside the process
      (file system, model runtime) are threaded explicitly through a
      [Process] record, together with the trace of the effects performed;
    - [throw], [exit] and runtime traps are outcomes of a small monad. *)

From Stdlib Require Import ZArith String Ascii.
From stdpp Require Import gmap list.

Set Warnings "-register-all".
Local Open Scope Z_scope.

(** ** Swift strings *)

Abbreviation UnicodeScalar := N (only parsing).
Abbreviation SwiftString := (list N) (only parsing).

(** A string literal of the source, all of whose characters are ASCII. *)
Definition lit (s : string) : SwiftString :=
  (λ a : ascii, N_of_ascii a) <$> list_ascii_of_string s.
Arguments lit : simpl never.

(** [String.isEmpty] *)
Definition isEmpty (s : SwiftString) : bool :=
  match s with [] => true | _ :: _ => false end.

(** [Sequence.joined(separator:)] on an array of strings. *)
Fixpoint joined (separator : SwiftString) (xs : list SwiftString) : SwiftString :=
  match xs with
  | [] => []
  | [x] => x
  | x :: rest => x ++ separator ++ joined separator rest
  end.

Fixpoint drop_while {A} (p : A → bool) (l : list A) : list A :=
  match l with
  | [] => []
  | x :: l' => if p x then drop_while p l' else l
  end.

(** [String.trimmingCharacters(in:)]: scalars of the set are removed from
    both ends of the string. *)
Definition trimmingCharacters (set : UnicodeScalar → bool) (s : SwiftString) : SwiftString :=
  reverse (drop_while set (reverse (drop_while set s))).

(** ** JSON values, as [JSONDecoder] and [JSONEncoder] see them *)

Inductive JSON :=
| JNull
| JBool (b : bool)
| JNumber (digits : SwiftString)
| JString (s : SwiftString)
| JArray (items : list JSON)
| JObject (fields : gmap SwiftString JSON).

(** ** Protocol types *)

Module Request.
Record t := {
  type : SwiftString;
  model_path : option SwiftString;
  audio_path : option SwiftString;
  language : option SwiftString;
}.
End Request.

Module Response.
Record t := {
  type : SwiftString;
  success : option bool;
  text : option SwiftString;
  error : option SwiftString;
  model_loaded : option bool;
}.
End Response.

(** The memberwise initialiser of [Response]; an optional [var] left out at
    the call site is [nil]. *)
Definition Response_init (type : SwiftString) (success : option bool)
    (text error : option SwiftString) (model_loaded : option bool) : Response.t :=
  {| Response.type := type; Response.success := success; Response.text := text;
     Response.error := error; Response.model_loaded := model_loaded |}.

(** *** Synthesised [Decodable] conformance of [Request] *)

(** [container.decode(String.self, forKey:)]: the key must be present and
    hold a string. *)
Definition decode_String (o : gmap SwiftString JSON) (key : SwiftString)
    : option SwiftString :=
  match o !! key with
  | Some (JString s) => Some s
  | _ => None
  end.

(** [container.decodeIfPresent(String.self, forKey:)]: [nil] when the key is
    absent or null, an error (outer [None]) when it holds anything but a
    string. *)
Definition decodeIfPresent_String (o : gmap SwiftString JSON) (key : SwiftString)
    : option (option SwiftString) :=
  match o !! key with
  | None | Some JNull => Some None
  | Some (JString s) => Some (Some s)
  | Some _ => None
  end.

Definition Request_init_from (j : JSON) : option Request.t :=
  match j with
  | JObject o =>
      ty ← decode_String o (lit "type");
      mp ← decodeIfPresent_String o (lit "model_path");
      ap ← decodeIfPresent_String o (lit "audio_path");
      lg ← decodeIfPresent_String o (lit "language");
      Some {| Request.type := ty; Request.model_path := mp;
              Request.audio_path := ap; Request.language := lg |}
  | _ => None
  end.

(** *** Synthesised [Encodable] conformance of [Response] *)

(** [container.encodeIfPresent(_:forKey:)]: a [nil] writes no key at all. *)
Definition encodeIfPresent (key : SwiftString) (v : option JSON)
    (o : gmap SwiftString JSON) : gmap SwiftString JSON :=
  match v with
  | Some j => <[key := j]> o
  | None => o
  end.

Definition Response_encode (r : Response.t) : gmap SwiftString JSON :=
  encodeIfPresent (lit "model_loaded") (JBool <$> Response.model_loaded r)
    (encodeIfPresent (lit "error") (JString <$> Response.error r)
      (encodeIfPresent (lit "text") (JString <$> Response.text r)
        (encodeIfPresent (lit "success") (JBool <$> Response.success r)
          (<[lit "type" := JString (Response.type r)]> ∅)))).
Arguments Response_encode : simpl never.

(** ** Raw PCM decoding *)

(** A [Float] is represented by its bit pattern. *)
Abbreviation Float := Z (only parsing).

Definition byte_val (b : Byte.byte) : Z := Z.of_N (Byte.to_N b).

(** The four bytes of a [Float] in memory, lowest address first, on the
    little-endian targets of the package (macOS 14). *)
Definition Float_of_bytes (b0 b1 b2 b3 : Byte.byte) : Float :=
  Z.lor (byte_val b0)
    (Z.lor (Z.shiftl (byte_val b1) 8)
      (Z.lor (Z.shiftl (byte_val b2) 16) (Z.shiftl (byte_val b3) 24))).

(** [MemoryLayout<Float>.size] *)
Definition MemoryLayout_Float_size : nat := 4.

(** [floatBuffer[i]] where [floatBuffer = rawBuffer.bindMemory(to: Float.self)]:
    the element at byte offset [4 * i]; reading past the end of the buffer is
    a trap ([None]). *)
Definition floatBuffer_get (rawBuffer : list Byte.byte) (i : nat) : option Float :=
  match rawBuffer !! (4 * i)%nat, rawBuffer !! (4 * i + 1)%nat,
        rawBuffer !! (4 * i + 2)%nat, rawBuffer !! (4 * i + 3)%nat with
  | Some b0, Some b1, Some b2, Some b3 => Some (Float_of_bytes b0 b1 b2 b3)
  | _, _, _, _ => None
  end.

(** [array[i] = v]: an index outside the array is a trap ([None]). *)
Definition array_set {A} (array : list A) (i : nat) (v : A) : option (list A) :=
  if decide (i < length array)%nat then Some (<[i := v]> array) else None.

(** The body of [for i in 0..<floatCount], run over the indices [is]. *)
Fixpoint copy_samples (rawBuffer : list Byte.byte) (indices : list nat)
    (audioSamples : list Float) : option (list Float) :=
  match indices with
  | [] => Some audioSamples
  | i :: rest =>
      v ← floatBuffer_get rawBuffer i;
      audioSamples' ← array_set audioSamples i v;
      copy_samples rawBuffer rest audioSamples'
  end.

(** Lines 47-54 of [transcribe]: from the bytes of the file to the sample
    array; [None] stands for a runtime trap. *)
Definition decode_audio (audioData : list Byte.byte) : option (list Float) :=
  let floatCount := (length audioData / MemoryLayout_Float_size)%nat in
  let audioSamples := replicate floatCount 0 in
  copy_samples audioData (seq 0 floatCount) audioSamples.

(** ** The model runtime's types, as far as the sidecar touches them *)

Inductive LogLevel := LogLevel_debug | LogLevel_info | LogLevel_error | LogLevel_none.

Record WhisperKitConfig := {
  modelFolder : SwiftString;
  verbose : bool;
  logLevel : LogLevel;
}.

Module DecodingOptions.
Record t := {
  language : option SwiftString;
  skipSpecialTokens : bool;
  withoutTimestamps : bool;
}.
(** [DecodingOptions()]: no language, both flags off. *)
Definition init : t :=
  {| language := None; skipSpecialTokens := false; withoutTimestamps := false |}.
End DecodingOptions.

Module TranscriptionResult.
Record t := { text : SwiftString }.
End TranscriptionResult.

(** An [Error] value, reduced to what [NSError] and [localizedDescription]
    expose. *)
Record SwiftError := {
  domain : SwiftString;
  code : Z;
  localizedDescription : SwiftString;
}.

(** [NSError(domain:code:userInfo: [NSLocalizedDescriptionKey: description])] *)
Definition NSError (domain : SwiftString) (code : Z) (description : SwiftString)
    : SwiftError :=
  {| domain := domain; code := code; localizedDescription := description |}.

(** ** The process and its effects *)

Inductive Outcome (A : Type) :=
| Returned (a : A)            (* normal completion *)
| Thrown (e : SwiftError)     (* a Swift [throw] not yet caught *)
| Exited (status : Z)         (* [exit(status)] was called *)
| Trapped.                    (* runtime trap: the process is killed *)
Arguments Returned {A} a.
Arguments Thrown {A} e.
Arguments Exited {A} status.
Arguments Trapped {A}.

(** ** A small concrete environment

    One model folder that loads, two audio files, an inference stub and a
    table of protocol lines: enough to run the definitions below on actual
    input. *)

Module Demo.

Definition Handle : Type := nat.
(** The world counts the capability calls made so far. *)
Definition World : Type := nat.

Definition quoted (s : string) : SwiftString := [34%N] ++ lit s ++ [34%N].

(** The text of a JSON object whose members are all strings. *)
Definition json_text (members : list (string * string)) : SwiftString :=
  lit "{"
  ++ joined (lit ",") ((λ m, quoted m.1 ++ lit ":" ++ quoted m.2) <$> members)
  ++ lit "}".

Definition json_value (members : list (string * string)) : JSON :=
  JObject (list_to_map ((λ m, (lit m.1, JString (lit m.2))) <$> members)).

Definition commands : list (list (string * string)) :=
  [ [("type", "load")];
    [("type", "load"); ("model_path", "/models/tiny")];
    [("type", "load"); ("model_path", "/models/missing")];
    [("type", "transcribe")];
    [("type", "transcribe"); ("audio_path", "/tmp/speech.raw")];
    [("type", "transcribe"); ("audio_path", "/tmp/speech.raw"); ("language", "dv")];
    [("type", "transcribe"); ("audio_path", "/tmp/speech.raw"); ("language", "auto")];
    [("type", "transcribe"); ("audio_path", "/tmp/short.raw")];
    [("type", "unload")];
    [("type", "health")];
    [("type", "shutdown")];
    [("type", "restart")];
    [("kind", "load")] ]%string.

(** A reader that knows the lines of [commands] and nothing else. *)
Definition JSON_parse (text : SwiftString) : option JSON :=
  json_value <$> (snd <$> list_find (λ members, json_text members = text) commands).

Definition WhisperKit_init (config : WhisperKitConfig) (w : World)
    : (SwiftError + Handle) * World :=
  if decide (modelFolder config = lit "/models/tiny")
  then (inr 7%nat, S w)
  else (inl (NSError (lit "WhisperKit") 2 (lit "Model folder not found")), S w).

(** Two samples, 1.0 and -2.0, and one stray byte. *)
Definition speech_raw : list Byte.byte :=
  [Byte.x00; Byte.x00; Byte.x80; Byte.x3f;
   Byte.x00; Byte.x00; Byte.x00; Byte.xc0;
   Byte.x7f].

Definition Data_contentsOf (path : SwiftString) (w : World)
    : (SwiftError + list Byte.byte) * World :=
  if decide (path = lit "/tmp/speech.raw") then (inr speech_raw, S w)
  else if decide (path = lit "/tmp/short.raw") then (inr [Byte.x01; Byte.x02], S w)
  else (inl (NSError (lit "NSCocoaErrorDomain") 260 (lit "No such file")), S w).

Definition WhisperKit_transcribe (kit : Handle) (audioArray : list Float)
    (options : DecodingOptions.t) (w : World)
    : (SwiftError + list TranscriptionResult.t) * World :=
  (inr [ {| TranscriptionResult.text := lit " hello" |};
         {| TranscriptionResult.text := lit "world" ++ [10%N] |} ], S w).

Definition whitespacesAndNewlines (c : UnicodeScalar) : bool :=
  bool_decide (c ∈ [9; 10; 11; 12; 13; 32; 133; 160]%N).

End Demo.

(** A second environment: the first one plus a line naming a file that
    does not exist, and an inference that refuses an empty sample array. *)

Module Lab.

Definition commands : list (list (string * string)) :=
  Demo.commands
  ++ [ [("type", "transcribe"); ("audio_path", "/tmp/none.raw")];
       [("type", "health"); ("id", "7")] ]%string.

Definition JSON_parse (text : SwiftString) : option JSON :=
  Demo.json_value
    <$> (snd <$> list_find (λ members, Demo.json_text members = text) commands).

Definition WhisperKit_transcribe (kit : Demo.Handle) (audioArray : list Float)
    (options : DecodingOptions.t) (w : Demo.World)
    : (SwiftError + list TranscriptionResult.t) * Demo.World :=
  if decide (audioArray = [])
  then (inl (NSError (lit "WhisperKit") 3 (lit "Audio is empty")), S w)
  else Demo.WhisperKit_transcribe kit audioArray options w.

End Lab.

Section Sidecar.

(** The in-memory model, [WhisperKit], by reference. *)
Variable Handle : Type.
(** Everything outside the process that a capability reads or changes:
    the file system and the state of the model runtime. *)
Variable World : Type.

(** [try await WhisperKit(config)] *)
Variable WhisperKit_init : WhisperKitConfig → World → (SwiftError + Handle) * World.
(** [try Data(contentsOf: URL(fileURLWithPath: path))] *)
Variable Data_contentsOf : SwiftString → World → (SwiftError + list Byte.byte) * World.
(** [try await kit.transcribe(audioArray:decodeOptions:)] *)
Variable WhisperKit_transcribe :
  Handle → list Float → DecodingOptions.t → World →
  (SwiftError + list TranscriptionResult.t) * World.
(** The JSON reader under [JSONDecoder.decode]: [None] when the text is not
    a JSON document. *)
Variable JSON_parse : SwiftString → option JSON.
(** [CharacterSet.whitespacesAndNewlines] *)
Variable whitespacesAndNewlines : UnicodeScalar → bool.

Inductive Event :=
| StderrWrite (message : SwiftString)
| StdoutPrint (json : gmap SwiftString JSON)
| StdoutFlush
| ModelInit (config : WhisperKitConfig)
| FileRead (path : SwiftString)
| Inference (kit : Handle) (audioArray : list Float) (options : DecodingOptions.t).

Record Process := {
  whisperKit : option Handle;   (* the stored property of the engine actor *)
  world : World;
  trace : list Event;           (* effects so far, oldest first *)
}.

Definition M (A : Type) : Type := Process → Outcome A * Process.

Definition ret {A} (a : A) : M A := λ p, (Returned a, p).

Definition bind {A B} (m : M A) (k : A → M B) : M B := λ p,
  match m p with
  | (Returned a, p') => k a p'
  | (Thrown e, p') => (Thrown e, p')
  | (Exited c, p') => (Exited c, p')
  | (Trapped, p') => (Trapped, p')
  end.

Notation "x ←: m ; k" := (bind m (λ x, k))
  (at level 100, m at next level, right associativity, only parsing).
Notation "m ;: k" := (bind m (λ _, k))
  (at level 100, right associativity, only parsing).

Definition throw {A} (e : SwiftError) : M A := λ p, (Thrown e, p).
Definition exit {A} (status : Z) : M A := λ p, (Exited status, p).
Definition trap {A} : M A := λ p, (Trapped, p).

(** [do { body } catch { handler }] *)
Definition do_catch {A} (body : M A) (handler : SwiftError → M A) : M A := λ p,
  match body p with
  | (Thrown e, p') => handler e p'
  | r => r
  end.

Definition emit (e : Event) : M unit := λ p,
  (Returned tt,
   {| whisperKit := whisperKit p; world := world p; trace := trace p ++ [e] |}).

(** A call of a throwing capability of the outside world, recorded as [e]. *)
Definition try_call {A} (e : Event) (f : World → (SwiftError + A) * World) : M A := λ p,
  let '(r, w) := f (world p) in
  let p' := {| whisperKit := whisperKit p; world := w; trace := trace p ++ [e] |} in
  match r with
  | inl err => (Thrown err, p')
  | inr a => (Returned a, p')
  end.

Definition get_whisperKit : M (option Handle) := λ p, (Returned (whisperKit p), p).

Definition set_whisperKit (k : option Handle) : M unit := λ p,
  (Returned tt, {| whisperKit := k; world := world p; trace := trace p |}).

(** *** Logging *)

Definition newline : SwiftString := [10%N].

Definition log (message : SwiftString) : M unit :=
  emit (StderrWrite (lit "[whisperkit-sidecar] " ++ message ++ newline)).

(** *** [actor TranscriptionEngine] *)

Definition loadModel (path : SwiftString) : M unit :=
  log (lit "Loading model from: " ++ path) ;:
  let config := {| modelFolder := path; verbose := false; logLevel := LogLevel_none |} in
  kit ←: try_call (ModelInit config) (WhisperKit_init config) ;
  set_whisperKit (Some kit) ;:
  log (lit "Model loaded successfully").

Definition transcribe (audioPath : SwiftString) (language : option SwiftString)
    : M SwiftString :=
  k ←: get_whisperKit ;
  match k with
  | None => throw (NSError (lit "WhisperKitSidecar") 1 (lit "No model loaded"))
  | Some kit =>
      log (lit "Transcribing: " ++ audioPath ++ lit ", language: "
             ++ default (lit "auto") language) ;:
      audioData ←: try_call (FileRead audioPath) (Data_contentsOf audioPath) ;
      match decode_audio audioData with
      | None => trap
      | Some audioSamples =>
          let options := DecodingOptions.init in
          let options :=
            match language with
            | Some lang =>
                if decide (lang ≠ lit "auto")
                then {| DecodingOptions.language := Some lang;
                        DecodingOptions.skipSpecialTokens :=
                          DecodingOptions.skipSpecialTokens options;
                        DecodingOptions.withoutTimestamps :=
                          DecodingOptions.withoutTimestamps options |}
                else options
            | None => options
            end in
          let options :=
            {| DecodingOptions.language := DecodingOptions.language options;
               DecodingOptions.skipSpecialTokens := true;
               DecodingOptions.withoutTimestamps :=
                 DecodingOptions.withoutTimestamps options |} in
          let options :=
            {| DecodingOptions.language := DecodingOptions.language options;
               DecodingOptions.skipSpecialTokens :=
                 DecodingOptions.skipSpecialTokens options;
               DecodingOptions.withoutTimestamps := true |} in
          results ←: try_call (Inference kit audioSamples options)
                       (WhisperKit_transcribe kit audioSamples options) ;
          let text :=
            trimmingCharacters whitespacesAndNewlines
              (joined (lit " ") (TranscriptionResult.text <$> results)) in
          log (lit "Transcription result: " ++ text) ;:
          ret text
      end
  end.

Definition unloadModel : M unit :=
  set_whisperKit None ;:
  log (lit "Model unloaded").

Definition isModelLoaded : M bool :=
  k ←: get_whisperKit ;
  ret (bool_decide (k ≠ None)).

(** *** Main loop *)

(** [try? decoder.decode(Request.self, from: requestData)] *)
Definition decoder_decode (line : SwiftString) : option Request.t :=
  j ← JSON_parse line; Request_init_from j.

(** [try? encoder.encode(response)] followed by [String(data:encoding:)];
    a [Response] holds only strings and booleans, which always encode. *)
Definition encoder_encode (response : Response.t) : option (gmap SwiftString JSON) :=
  Some (Response_encode response).

(** [if let data = ..., let json = ... { print(json); fflush(stdout) }] *)
Definition write_response (response : Response.t) : M unit :=
  match encoder_encode response with
  | Some json => emit (StdoutPrint json) ;: emit StdoutFlush
  | None => ret tt
  end.

(** The [switch request.type] of the loop body; returns the [response]
    that the code after the [switch] prints. *)
Definition dispatch (request : Request.t) : M Response.t :=
  let ty := Request.type request in
  if decide (ty = lit "load") then
    match Request.model_path request with
    | None =>
        ret (Response_init (lit "loaded") (Some false) None
               (Some (lit "Missing model_path")) None)
    | Some modelPath =>
        do_catch
          (loadModel modelPath ;:
           ret (Response_init (lit "loaded") (Some true) None None None))
          (λ error,
           ret (Response_init (lit "loaded") (Some false) None
                  (Some (localizedDescription error)) None))
    end
  else if decide (ty = lit "transcribe") then
    match Request.audio_path request with
    | None =>
        ret (Response_init (lit "transcription") (Some false) None
               (Some (lit "Missing audio_path")) None)
    | Some audioPath =>
        do_catch
          (text ←: transcribe audioPath (Request.language request) ;
           ret (Response_init (lit "transcription") (Some true) (Some text) None None))
          (λ error,
           ret (Response_init (lit "transcription") (Some false) None
                  (Some (localizedDescription error)) None))
    end
  else if decide (ty = lit "unload") then
    unloadModel ;:
    ret (Response_init (lit "unloaded") (Some true) None None None)
  else if decide (ty = lit "health") then
    loaded ←: isModelLoaded ;
    ret (Response_init (lit "health") None None None (Some loaded))
  else if decide (ty = lit "shutdown") then
    write_response (Response_init (lit "shutdown_ack") (Some true) None None None) ;:
    log (lit "Shutdown requested, exiting") ;:
    exit 0
  else
    ret (Response_init (lit "error") (Some false) None
           (Some (lit "Unknown command: " ++ ty)) None).

(** One iteration of [while let line = readLine(strippingNewline: true)]. *)
Definition loop_body (line : SwiftString) : M unit :=
  if isEmpty line then ret tt
  else
    match decoder_decode line with
    | None =>
        write_response (Response_init (lit "error") (Some false) None
                          (Some (lit "Invalid JSON request")) None)
    | Some request =>
        response ←: dispatch request ;
        write_response response
    end.

(** The loop over the lines still to come on standard input.  Besides the
    outcome and the process, the result holds the lines never read. *)
Fixpoint main_loop (stdin : list SwiftString) (p : Process)
    : Outcome unit * Process * list SwiftString :=
  match stdin with
  | [] => (log (lit "stdin closed, exiting") p, [])
  | line :: rest =>
      match loop_body line p with
      | (Returned _, p') => main_loop rest p'
      | r => (r, rest)
      end
  end.

(** The top-level code of [main.swift], started in world [w]. *)
Definition initial (w : World) : Process :=
  {| whisperKit := None; world := w; trace := [] |}.

Definition main (stdin : list SwiftString) (w : World)
    : Outcome unit * Process * list SwiftString :=
  match log (lit "WhisperKit sidecar started, waiting for commands...") (initial w) with
  | (Returned _, p) => main_loop stdin p
  | r => (r, stdin)
  end.

(** The exit status of the process: 0 when the top-level code runs to its
    end, the argument of [exit] otherwise; none after a trap. *)
Definition exit_status (o : Outcome unit) : option Z :=
  match o with
  | Returned _ => Some 0
  | Exited c => Some c
  | Thrown _ | Trapped => None
  end.

(** ** Reference functions, written from the specification *)

(** The audio buffer in the specification's words: the bytes taken four at
    a time as consecutive little-endian 32-bit values, an incomplete last
    group being ignored. *)
Fixpoint spec_samples (bytes : list Byte.byte) : list Float :=
  match bytes with
  | b0 :: b1 :: b2 :: b3 :: rest => Float_of_bytes b0 b1 b2 b3 :: spec_samples rest
  | _ => []
  end.

(** Byte [k] (0 for the lowest address) of the little-endian image of a
    32-bit pattern. *)
Definition Float_byte (bits : Float) (k : Z) : Byte.byte :=
  default Byte.x00 (Byte.of_N (Z.to_N (Z.land (Z.shiftr bits (8 * k)) 255))).

Definition Float_to_bytes (bits : Float) : list Byte.byte :=
  [Float_byte bits 0; Float_byte bits 1; Float_byte bits 2; Float_byte bits 3].

(** An audio fixture: the images of the samples one after the other. *)
Definition spec_fixture (samples : list Float) : list Byte.byte :=
  samples ≫= Float_to_bytes.

(** The decoding options in the specification's words: skip special
    tokens, suppress timestamps, and a language tag only when one is given
    and it is not "auto". *)
Definition spec_options (language : option SwiftString) : DecodingOptions.t :=
  {| DecodingOptions.language :=
       match language with
       | Some lang => if decide (lang = lit "auto") then None else Some lang
       | None => None
       end;
     DecodingOptions.skipSpecialTokens := true;
     DecodingOptions.withoutTimestamps := true |}.

(** [t] is [s] with its leading and trailing members of [set] removed. *)
Definition spec_trimmed (set : UnicodeScalar → bool) (s t : SwiftString) : Prop :=
  ∃ leading trailing,
    s = leading ++ t ++ trailing
    ∧ Forall (λ c, set c = true) leading
    ∧ Forall (λ c, set c = true) trailing
    ∧ (∀ c, head t = Some c → set c = false)
    ∧ (∀ c, last t = Some c → set c = false).

(** The texts of the segments one after the other, a single space between
    two neighbours. *)
Definition spec_joined (texts : list SwiftString) : SwiftString :=
  match texts with
  | [] => []
  | first :: others => first ++ concat ((λ t, 32%N :: t) <$> others)
  end.

(** ** Observations on a run *)

(** A JSON object given by its members. *)
Definition json_object (members : list (SwiftString * JSON)) : gmap SwiftString JSON :=
  list_to_map members.

(** The replies printed on standard output, in order, among some events. *)
Definition replies (events : list Event) : list (gmap SwiftString JSON) :=
  omap (λ e, match e with StdoutPrint json => Some json | _ => None end) events.

(** Calls into the engine's capabilities: model construction, file read,
    inference. *)
Definition is_capability_call (e : Event) : bool :=
  match e with
  | ModelInit _ | FileRead _ | Inference _ _ _ => true
  | _ => false
  end.

(** The events of [p'] that [p] did not have yet. *)
Definition events_since (p p' : Process) : list Event :=
  drop (length (trace p)) (trace p').

(** The loop body over a finite run of lines, end of input not included. *)
Fixpoint run_lines (lines : list SwiftString) (p : Process) : Outcome unit * Process :=
  match lines with
  | [] => (Returned tt, p)
  | line :: rest =>
      match loop_body line p with
      | (Returned _, p') => run_lines rest p'
      | r => r
      end
  end.

(** The line is not empty and decodes to a command of the given type. *)
Definition is_command (kind : SwiftString) (line : SwiftString) : bool :=
  negb (isEmpty line) &&
  match decoder_decode line with
  | Some request => bool_decide (Request.type request = kind)
  | None => false
  end.

(** The process [p] after the events [events]. *)
Definition after (p : Process) (events : list Event) : Process :=
  {| whisperKit := whisperKit p; world := world p; trace := trace p ++ events |}.

(** The stderr line that [log] writes for a message. *)
Definition logged (message : SwiftString) : Event :=
  StderrWrite (lit "[whisperkit-sidecar] " ++ message ++ newline).

(** The process [p] with engine state [k], world [w] and further [events]. *)
Definition evolve (p : Process) (k : option Handle) (w : World) (events : list Event)
    : Process :=
  {| whisperKit := k; world := w; trace := trace p ++ events |}.

(** The configuration [loadModel] builds for a path. *)
Definition config_for (path : SwiftString) : WhisperKitConfig :=
  {| modelFolder := path; verbose := false; logLevel := LogLevel_none |}.

(** The text [transcribe] assembles from the inference results. *)
Definition text_of (results : list TranscriptionResult.t) : SwiftString :=
  trimmingCharacters whitespacesAndNewlines
    (joined (lit " ") (TranscriptionResult.text <$> results)).

(** A reply carries the fields of its kind and no others: a health reply
    has [model_loaded] alone, any other reply has [success] and never
    [model_loaded]. *)
Definition reply_shape (json : gmap SwiftString JSON) : Prop :=
  (∀ key, json !! key ≠ Some JNull)
  ∧ (∃ ty, json !! lit "type" = Some (JString ty))
  ∧ (json !! lit "type" = Some (JString (lit "health")) →
       json !! lit "success" = None ∧ json !! lit "text" = None
       ∧ json !! lit "error" = None
       ∧ ∃ b, json !! lit "model_loaded" = Some (JBool b))
  ∧ (json !! lit "type" ≠ Some (JString (lit "health")) →
       json !! lit "model_loaded" = None
       ∧ ∃ b, json !! lit "success" = Some (JBool b)).

(** The values of [type] that the [switch] of the loop has a case for. *)
Definition known_types : list SwiftString :=
  [lit "load"; lit "transcribe"; lit "unload"; lit "health"; lit "shutdown"].

(** The fields of a response fit its kind: see [reply_shape]. *)
Definition response_shape (r : Response.t) : Prop :=
  (Response.type r = lit "health" ∧ Response.success r = None
   ∧ Response.text r = None ∧ Response.error r = None
   ∧ is_Some (Response.model_loaded r))
  ∨ (Response.type r ≠ lit "health" ∧ Response.model_loaded r = None
     ∧ is_Some (Response.success r)).

(** The reply that reports a successful load. *)
Definition loaded_ok : gmap SwiftString JSON :=
  Response_encode (Response_init (lit "loaded") (Some true) None None None).

(** ** Further observations *)

(** The reply type the [switch] pairs with a request type. *)
Definition reply_kind (ty : SwiftString) : SwiftString :=
  if decide (ty = lit "load") then lit "loaded"
  else if decide (ty = lit "transcribe") then lit "transcription"
  else if decide (ty = lit "unload") then lit "unloaded"
  else if decide (ty = lit "health") then lit "health"
  else if decide (ty = lit "shutdown") then lit "shutdown_ack"
  else lit "error".

(** Writes to standard output. *)
Definition is_stdout (e : Event) : bool :=
  match e with
  | StdoutPrint _ | StdoutFlush => true
  | _ => false
  end.

(** What holds of an event whatever the state it happens in: a stderr line
    has the tag in front and a newline at the end, a model is built with
    verbosity off, inference gets 32-bit samples and options with both
    flags set and a language other than "auto". *)
Definition well_formed_event (e : Event) : Prop :=
  match e with
  | StderrWrite m => ∃ message, m = lit "[whisperkit-sidecar] " ++ message ++ newline
  | ModelInit config => verbose config = false ∧ logLevel config = LogLevel_none
  | Inference _ samples options =>
      Forall (λ bits, 0 ≤ bits < 2 ^ 32) samples
      ∧ DecodingOptions.skipSpecialTokens options = true
      ∧ DecodingOptions.withoutTimestamps options = true
      ∧ DecodingOptions.language options ≠ Some (lit "auto")
  | _ => True
  end.

(** The optional string field [key] of the object [o] decodes to [v]. *)
Definition optional_field (o : gmap SwiftString JSON) (key : SwiftString)
    (v : option SwiftString) : Prop :=
  match v with
  | Some s => o !! key = Some (JString s)
  | None => o !! key = None ∨ o !! key = Some JNull
  end.

(** The keys [Request] has coding keys for. *)
Definition Request_keys : list SwiftString :=
  [lit "type"; lit "model_path"; lit "audio_path"; lit "language"].

(** The outcome members of a response agree with each other: an error
    message goes with success=false and never with a text, and a text only
    with a "transcription". *)
Definition response_outcome (r : Response.t) : Prop :=
  match Response.success r with
  | Some true => Response.error r = None
  | Some false => is_Some (Response.error r) ∧ Response.text r = None
  | None => Response.text r = None ∧ Response.error r = None
  end
  ∧ (is_Some (Response.text r) → Response.type r = lit "transcription").

(** The same, read off the JSON object of a reply. *)
Definition reply_outcome (json : gmap SwiftString JSON) : Prop :=
  (json !! lit "success" = Some (JBool true) → json !! lit "error" = None)
  ∧ (json !! lit "success" = Some (JBool false) →
       (∃ message, json !! lit "error" = Some (JString message))
       ∧ json !! lit "text" = None)
  ∧ (json !! lit "success" = None →
       json !! lit "text" = None ∧ json !! lit "error" = None)
  ∧ (is_Some (json !! lit "text") →
       json !! lit "type" = Some (JString (lit "transcription"))).

(** ** Properties of the raw PCM decoder *)

Lemma quads_ind (P : list Byte.byte → Prop) :
  P [] → (∀ b0, P [b0]) → (∀ b0 b1, P [b0; b1]) → (∀ b0 b1 b2, P [b0; b1; b2]) →
  (∀ b0 b1 b2 b3 rest, P rest → P (b0 :: b1 :: b2 :: b3 :: rest)) →
  ∀ bytes, P bytes.
Proof.
  intros H0 H1 H2 H3 H4.
  fix IH 1. intros [|b0 [|b1 [|b2 [|b3 rest]]]];
    [apply H0 | apply H1 | apply H2 | apply H3 | apply H4, IH].
Qed.

Lemma spec_samples_length bytes :
  length (spec_samples bytes) = (length bytes / 4)%nat.
Proof.
  induction bytes as [| | | |b0 b1 b2 b3 rest IH] using quads_ind; try reflexivity.
  cbn [spec_samples length]. rewrite IH.
  change (S (S (S (S (length rest))))) with (1 * 4 + length rest)%nat.
  by rewrite Nat.div_add_l.
Qed.

Lemma floatBuffer_get_short bytes i :
  (length bytes ≤ 4 * i + 3)%nat → floatBuffer_get bytes i = None.
Proof.
  intros Hlen. unfold floatBuffer_get.
  rewrite (lookup_ge_None_2 bytes (4 * i + 3)) by lia.
  by destruct (bytes !! (4 * i)%nat), (bytes !! (4 * i + 1)%nat), (bytes !! (4 * i + 2)%nat).
Qed.

Lemma floatBuffer_get_spec bytes i :
  floatBuffer_get bytes i = spec_samples bytes !! i.
Proof.
  revert i.
  induction bytes as [| | | |b0 b1 b2 b3 rest IH] using quads_ind; intros i;
    try (rewrite floatBuffer_get_short by (cbn; lia); symmetry; apply lookup_nil).
  destruct i as [|j]; [reflexivity|].
  cbn [spec_samples]. rewrite lookup_cons_ne_0 by done. cbn [pred].
  rewrite <- IH. unfold floatBuffer_get.
  replace (4 * S j)%nat with (S (S (S (S (4 * j))))) by lia.
  reflexivity.
Qed.

Lemma copy_samples_seq bytes k m :
  (k + m)%nat = length (spec_samples bytes) →
  copy_samples bytes (seq k m) (take k (spec_samples bytes) ++ replicate m 0)
  = Some (spec_samples bytes).
Proof.
  revert k. induction m as [|m IH]; intros k Hlen.
  - cbn. rewrite app_nil_r, take_ge by lia. done.
  - cbn [seq copy_samples]. rewrite floatBuffer_get_spec.
    destruct (spec_samples bytes !! k) as [v|] eqn:Hk.
    2:{ apply lookup_ge_None in Hk. lia. }
    assert (Hk' : length (take k (spec_samples bytes)) = k)
      by (rewrite length_take; lia).
    cbn. unfold array_set.
    rewrite decide_True by (rewrite length_app, Hk'; cbn; lia).
    cbn. rewrite <- (IH (S k)) by lia. f_equal.
    rewrite (take_S_r _ _ _ Hk), <- app_assoc. cbn.
    rewrite insert_app_r_alt by lia.
    rewrite Hk', Nat.sub_diag. reflexivity.
Qed.

(** The loop of the source computes the reference decoding and never traps. *)
Lemma decode_audio_spec bytes :
  decode_audio bytes = Some (spec_samples bytes).
Proof.
  unfold decode_audio, MemoryLayout_Float_size.
  rewrite <- spec_samples_length.
  apply (copy_samples_seq bytes 0). done.
Qed.

Lemma spec_samples_app_stray complete stray N :
  length complete = (4 * N)%nat → (length stray ≤ 3)%nat →
  spec_samples (complete ++ stray) = spec_samples complete.
Proof.
  revert N.
  induction complete as [| | | |b0 b1 b2 b3 rest IH] using quads_ind;
    intros N HN Hs; cbn in HN; try lia.
  - destruct stray as [|? [|? [|? [|? ?]]]]; cbn in Hs; try lia; reflexivity.
  - cbn. f_equal. apply (IH (N - 1)%nat); lia.
Qed.

(** *** The little-endian image of a sample decodes to the sample *)

Lemma byte_val_Float_byte bits k :
  byte_val (Float_byte bits k) = Z.land (Z.shiftr bits (8 * k)) 255.
Proof.
  unfold byte_val, Float_byte.
  set (v := Z.land (Z.shiftr bits (8 * k)) 255).
  assert (Hv : 0 ≤ v < 256).
  { subst v. change 255 with (Z.ones 8). rewrite Z.land_ones by lia.
    apply Z.mod_pos_bound. lia. }
  destruct (Byte.of_N (Z.to_N v)) as [b|] eqn:Hb.
  - cbn. rewrite (Byte.to_of_N (Z.to_N v) Hb). lia.

  - apply Byte.of_N_None_iff in Hb. lia.
Qed.

Lemma testbit_byte_piece bits k n :
  0 ≤ k → 0 ≤ n →
  Z.testbit (Z.shiftl (Z.land (Z.shiftr bits (8 * k)) 255) (8 * k)) n
  = Z.testbit bits n && (8 * k <=? n) && (n <? 8 * k + 8).
Proof.
  intros Hk Hn. rewrite Z.shiftl_spec by done.
  destruct (Z.leb_spec (8 * k) n) as [Hle|Hlt].
  - rewrite Z.land_spec, Z.shiftr_spec by lia.
    replace (n - 8 * k + 8 * k) with n by lia.
    change 255 with (Z.ones 8). rewrite Z.testbit_ones_nonneg by lia.
    destruct (Z.ltb_spec (n - 8 * k) 8), (Z.ltb_spec n (8 * k + 8)); try lia;
      by destruct (Z.testbit bits n).
  - rewrite Z.testbit_neg_r by lia. by destruct (Z.testbit bits n).
Qed.

Lemma Float_of_bytes_image bits :
  0 ≤ bits < 2 ^ 32 →
  Float_of_bytes (Float_byte bits 0) (Float_byte bits 1)
                 (Float_byte bits 2) (Float_byte bits 3) = bits.
Proof.
  intros Hb. unfold Float_of_bytes. rewrite !byte_val_Float_byte.
  apply Z.bits_inj'. intros n Hn.
  rewrite <- (Z.shiftl_0_r (Z.land (Z.shiftr bits (8 * 0)) 255)).
  change 0 with (8 * 0) at 2. change 16 with (8 * 2). change 24 with (8 * 3).
  change 8 with (8 * 1) at 3.
  rewrite !Z.lor_spec, !testbit_byte_piece by lia.
  destruct (Z.ltb_spec n 32) as [Hlt|Hge].
  - destruct (Z.testbit bits n); cbn [andb]; [|reflexivity].
    destruct (Z.leb_spec (8 * 0) n), (Z.ltb_spec n (8 * 0 + 8)),
      (Z.leb_spec (8 * 1) n), (Z.ltb_spec n (8 * 1 + 8)),
      (Z.leb_spec (8 * 2) n), (Z.ltb_spec n (8 * 2 + 8)),
      (Z.leb_spec (8 * 3) n), (Z.ltb_spec n (8 * 3 + 8)); try lia; reflexivity.
  - assert (Z.testbit bits n = false) as ->.
    { destruct (Z.eq_dec bits 0) as [->|Hne]; [apply Z.bits_0|].
      apply Z.bits_above_log2; [lia|].
      assert (Z.log2 bits < 32) by (apply Z.log2_lt_pow2; lia). lia. }
    reflexivity.
Qed.

Lemma byte_val_range b : 0 ≤ byte_val b < 256.
Proof. unfold byte_val. pose proof (Byte.to_N_bounded b). lia. Qed.

(** Every decoded sample is a 32-bit pattern. *)
Lemma Float_of_bytes_range b0 b1 b2 b3 : 0 ≤ Float_of_bytes b0 b1 b2 b3 < 2 ^ 32.
Proof.
  unfold Float_of_bytes.
  pose proof (byte_val_range b0). pose proof (byte_val_range b1).
  pose proof (byte_val_range b2). pose proof (byte_val_range b3).
  set (v := Z.lor _ _).
  assert (Hnn : 0 ≤ v).
  { subst v. rewrite !Z.lor_nonneg, !Z.shiftl_nonneg. lia. }
  split; [done|].
  destruct (Z.eq_dec v 0) as [->|Hne]; [done|].
  apply Z.log2_lt_pow2; [lia|].
  destruct (Z.lt_ge_cases (Z.log2 v) 32) as [|Hge]; [done|exfalso].
  assert (Hbit : Z.testbit v (Z.log2 v) = true) by (apply Z.bit_log2; lia).
  assert (Hhigh : ∀ x k, 0 ≤ x < 256 → 0 ≤ k ≤ 24 →
                         Z.testbit (Z.shiftl x k) (Z.log2 v) = false).
  { intros x k Hx Hk. rewrite Z.shiftl_spec by lia.
    destruct (Z.eq_dec x 0) as [->|Hx0]; [apply Z.bits_0|].
    apply Z.bits_above_log2; [lia|].
    assert (Z.log2 x < 8) by (apply Z.log2_lt_pow2; lia). lia. }
  subst v. rewrite !Z.lor_spec in Hbit.
  rewrite <- (Z.shiftl_0_r (byte_val b0)) in Hbit.
  rewrite !Hhigh in Hbit by lia. discriminate Hbit.
Qed.

Lemma spec_samples_range bytes :
  Forall (λ bits, 0 ≤ bits < 2 ^ 32) (spec_samples bytes).
Proof.
  induction bytes as [| | | |b0 b1 b2 b3 rest IH] using quads_ind;
    cbn [spec_samples]; try constructor; [apply Float_of_bytes_range|exact IH].
Qed.

Lemma spec_samples_fixture samples :
  Forall (λ bits, 0 ≤ bits < 2 ^ 32) samples →
  spec_samples (spec_fixture samples) = samples.
Proof.
  unfold spec_fixture. induction 1 as [|bits rest Hb _ IH]; [reflexivity|].
  cbn [mbind list_bind]. unfold Float_to_bytes at 1. cbn [app spec_samples].
  rewrite Float_of_bytes_image by done. f_equal. exact IH.
Qed.

Lemma spec_fixture_length samples :
  length (spec_fixture samples) = (4 * length samples)%nat.
Proof.
  unfold spec_fixture. induction samples as [|bits rest IH]; [reflexivity|].
  cbn [mbind list_bind]. rewrite length_app. cbn [length Float_to_bytes].
  fold (mbind (M := list) Float_to_bytes rest). rewrite IH. lia.
Qed.

(** ** Properties of the text assembly *)

Lemma drop_while_split {A} (p : A → bool) (l : list A) :
  ∃ dropped,
    l = dropped ++ drop_while p l
    ∧ Forall (λ c, p c = true) dropped
    ∧ ∀ c, head (drop_while p l) = Some c → p c = false.
Proof.
  induction l as [|x l (dropped & Hl & Hd & Hh)].
  { exists []. repeat split; [constructor|done]. }
  cbn [drop_while]. destruct (p x) eqn:Hx.
  - exists (x :: dropped). cbn. rewrite <- Hl. repeat split; [by constructor|done].
  - exists []. repeat split; [constructor|]. cbn. by intros c [= <-].
Qed.

Lemma trimmingCharacters_spec set s :
  spec_trimmed set s (trimmingCharacters set s).
Proof.
  unfold trimmingCharacters, spec_trimmed.
  destruct (drop_while_split set s) as (leading & Hs & Hlead & Hhead).
  set (m := drop_while set s) in *.
  destruct (drop_while_split set (reverse m)) as (tail & Hm & Htail & Hlast).
  set (d := drop_while set (reverse m)) in *.
  assert (Hm' : m = reverse d ++ reverse tail).
  { rewrite <- reverse_app, <- Hm. by rewrite reverse_involutive. }
  exists leading, (reverse tail). split; [by rewrite <- Hm'|].
  split; [done|]. split; [by apply Forall_reverse|]. split.
  - intros c Hc. apply Hhead. rewrite Hm'.
    destruct (reverse d); [done|]. exact Hc.
  - intros c Hc. apply Hlast. by rewrite <- last_reverse.
Qed.

Lemma joined_cons sep first others :
  joined sep (first :: others) = first ++ concat ((λ t, sep ++ t) <$> others).
Proof.
  revert first. induction others as [|second others IH]; intros first.
  { cbn. by rewrite app_nil_r. }
  change (joined sep (first :: second :: others))
    with (first ++ sep ++ joined sep (second :: others)).
  rewrite IH. cbn. by rewrite <- !app_assoc.
Qed.

Lemma joined_spec texts : joined (lit " ") texts = spec_joined texts.
Proof. destruct texts as [|first others]; [reflexivity|]. apply joined_cons. Qed.

Lemma spec_options_language language lang :
  DecodingOptions.language (spec_options language) = Some lang
  ↔ language = Some lang ∧ lang ≠ lit "auto".
Proof.
  unfold spec_options. cbn [DecodingOptions.language].
  destruct language as [l|]; [|by split; [|intros [? _]]].
  case_decide as Hl; split.
  - done.
  - intros [[= ->] Hne]. done.
  - intros [= ->]. done.
  - by intros [-> _].
Qed.

(** ** Evaluation of the building blocks *)

Ltac lit_discriminate H := exfalso; vm_compute in H; discriminate H.

Lemma after_nil p : after p [] = p.
Proof. destruct p. unfold after. cbn. by rewrite app_nil_r. Qed.

Lemma after_after p evs1 evs2 : after (after p evs1) evs2 = after p (evs1 ++ evs2).
Proof. unfold after. cbn. by rewrite app_assoc. Qed.

Lemma emit_eq e p : emit e p = (Returned tt, after p [e]).
Proof. reflexivity. Qed.

Lemma log_eq message p : log message p = (Returned tt, after p [logged message]).
Proof. reflexivity. Qed.

Lemma write_response_eq response p :
  write_response response p
  = (Returned tt, after p [StdoutPrint (Response_encode response); StdoutFlush]).
Proof.
  unfold write_response, encoder_encode, bind. rewrite !emit_eq, after_after. reflexivity.
Qed.

Lemma events_since_after p evs : events_since p (after p evs) = evs.
Proof. unfold events_since, after. cbn. by rewrite drop_app_length. Qed.

Lemma loop_body_empty p : loop_body [] p = (Returned tt, p).
Proof. reflexivity. Qed.

Lemma loop_body_decoded line request p :
  line ≠ [] → decoder_decode line = Some request →
  loop_body line p = bind (dispatch request) write_response p.
Proof.
  intros Hne Hdec. unfold loop_body. destruct line; [done|]. cbn [isEmpty].
  by rewrite Hdec.
Qed.

Lemma loop_body_undecodable line p :
  line ≠ [] → decoder_decode line = None →
  loop_body line p
  = write_response (Response_init (lit "error") (Some false) None
                      (Some (lit "Invalid JSON request")) None) p.
Proof.
  intros Hne Hdec. unfold loop_body. destruct line; [done|]. cbn [isEmpty].
  by rewrite Hdec.
Qed.

(** *** The branches of the [switch] *)

Lemma dispatch_load request :
  Request.type request = lit "load" →
  dispatch request =
    match Request.model_path request with
    | None =>
        ret (Response_init (lit "loaded") (Some false) None
               (Some (lit "Missing model_path")) None)
    | Some modelPath =>
        do_catch
          (bind (loadModel modelPath)
             (λ _, ret (Response_init (lit "loaded") (Some true) None None None)))
          (λ error,
           ret (Response_init (lit "loaded") (Some false) None
                  (Some (localizedDescription error)) None))
    end.
Proof. intros Hty. unfold dispatch. rewrite Hty. by rewrite decide_True. Qed.

Lemma dispatch_transcribe request :
  Request.type request = lit "transcribe" →
  dispatch request =
    match Request.audio_path request with
    | None =>
        ret (Response_init (lit "transcription") (Some false) None
               (Some (lit "Missing audio_path")) None)
    | Some audioPath =>
        do_catch
          (bind (transcribe audioPath (Request.language request))
             (λ text, ret (Response_init (lit "transcription") (Some true)
                             (Some text) None None)))
          (λ error,
           ret (Response_init (lit "transcription") (Some false) None
                  (Some (localizedDescription error)) None))
    end.
Proof.
  intros Hty. unfold dispatch. rewrite Hty.
  case_decide as H; [lit_discriminate H|]. by rewrite decide_True.
Qed.

Lemma dispatch_unload request :
  Request.type request = lit "unload" →
  dispatch request =
    bind unloadModel
      (λ _, ret (Response_init (lit "unloaded") (Some true) None None None)).
Proof.
  intros Hty. unfold dispatch. rewrite Hty.
  do 2 (case_decide as H; [lit_discriminate H|clear H]). by rewrite decide_True.
Qed.

Lemma dispatch_health request :
  Request.type request = lit "health" →
  dispatch request =
    bind isModelLoaded
      (λ loaded, ret (Response_init (lit "health") None None None (Some loaded))).
Proof.
  intros Hty. unfold dispatch. rewrite Hty.
  do 3 (case_decide as H; [lit_discriminate H|clear H]). by rewrite decide_True.
Qed.

Lemma dispatch_shutdown request :
  Request.type request = lit "shutdown" →
  dispatch request =
    bind (write_response (Response_init (lit "shutdown_ack") (Some true) None None None))
      (λ _, bind (log (lit "Shutdown requested, exiting")) (λ _, exit 0)).
Proof.
  intros Hty. unfold dispatch. rewrite Hty.
  do 4 (case_decide as H; [lit_discriminate H|clear H]). by rewrite decide_True.
Qed.

Lemma dispatch_unknown request :
  Request.type request ≠ lit "load" →
  Request.type request ≠ lit "transcribe" →
  Request.type request ≠ lit "unload" →
  Request.type request ≠ lit "health" →
  Request.type request ≠ lit "shutdown" →
  dispatch request =
    ret (Response_init (lit "error") (Some false) None
           (Some (lit "Unknown command: " ++ Request.type request)) None).
Proof. intros. unfold dispatch. by rewrite !decide_False. Qed.

Lemma transcribe_unloaded audioPath language p :
  whisperKit p = None →
  transcribe audioPath language p
  = (Thrown (NSError (lit "WhisperKitSidecar") 1 (lit "No model loaded")), p).
Proof. intros Hk. unfold transcribe, bind, get_whisperKit. by rewrite Hk. Qed.

(** *** The engine's operations, evaluated *)

Lemma evolve_after p evs : evolve p (whisperKit p) (world p) evs = after p evs.
Proof. reflexivity. Qed.

Lemma loadModel_eq path p :
  loadModel path p =
    match WhisperKit_init (config_for path) (world p) with
    | (inl err, w) =>
        (Thrown err,
         evolve p (whisperKit p) w
           [logged (lit "Loading model from: " ++ path); ModelInit (config_for path)])
    | (inr kit, w) =>
        (Returned tt,
         evolve p (Some kit) w
           [logged (lit "Loading model from: " ++ path); ModelInit (config_for path);
            logged (lit "Model loaded successfully")])
    end.
Proof.
  unfold loadModel, bind, log, emit, try_call, set_whisperKit, evolve, logged.
  cbn. fold (config_for path).
  destruct (WhisperKit_init (config_for path) (world p)) as [[err|kit] w]; cbn;
    by rewrite <- ?app_assoc.
Qed.

Lemma unloadModel_eq p :
  unloadModel p = (Returned tt, evolve p None (world p) [logged (lit "Model unloaded")]).
Proof. reflexivity. Qed.

Lemma isModelLoaded_eq p :
  isModelLoaded p = (Returned (bool_decide (whisperKit p ≠ None)), p).
Proof. reflexivity. Qed.

Lemma options_eq language :
  (let options := DecodingOptions.init in
   let options :=
     match language with
     | Some lang =>
         if decide (lang ≠ lit "auto")
         then {| DecodingOptions.language := Some lang;
                 DecodingOptions.skipSpecialTokens :=
                   DecodingOptions.skipSpecialTokens options;
                 DecodingOptions.withoutTimestamps :=
                   DecodingOptions.withoutTimestamps options |}
         else options
     | None => options
     end in
   let options :=
     {| DecodingOptions.language := DecodingOptions.language options;
        DecodingOptions.skipSpecialTokens := true;
        DecodingOptions.withoutTimestamps :=
          DecodingOptions.withoutTimestamps options |} in
   {| DecodingOptions.language := DecodingOptions.language options;
      DecodingOptions.skipSpecialTokens :=
        DecodingOptions.skipSpecialTokens options;
      DecodingOptions.withoutTimestamps := true |})
  = spec_options language.
Proof.
  unfold spec_options. destruct language as [lang|]; [|reflexivity].
  cbv zeta. destruct (decide (lang = lit "auto")) as [Heq|Hne].
  - rewrite decide_False by (intros H; by apply H). reflexivity.
  - by rewrite decide_True.
Qed.

Lemma transcribe_loaded audioPath language p kit :
  whisperKit p = Some kit →
  transcribe audioPath language p =
    let started :=
      logged (lit "Transcribing: " ++ audioPath ++ lit ", language: "
                ++ default (lit "auto") language) in
    match Data_contentsOf audioPath (world p) with
    | (inl err, w1) =>
        (Thrown err, evolve p (Some kit) w1 [started; FileRead audioPath])
    | (inr audioData, w1) =>
        let audioSamples := spec_samples audioData in
        let options := spec_options language in
        match WhisperKit_transcribe kit audioSamples options w1 with
        | (inl err, w2) =>
            (Thrown err,
             evolve p (Some kit) w2
               [started; FileRead audioPath; Inference kit audioSamples options])
        | (inr results, w2) =>
            (Returned (text_of results),
             evolve p (Some kit) w2
               [started; FileRead audioPath; Inference kit audioSamples options;
                logged (lit "Transcription result: " ++ text_of results)])
        end
    end.
Proof.
  intros Hk. unfold transcribe, bind at 1. unfold get_whisperKit. rewrite Hk.
  unfold bind at 1. rewrite log_eq. unfold bind at 1, try_call. cbn [world after trace whisperKit].
  destruct (Data_contentsOf audioPath (world p)) as [[err|audioData] w1].
  { unfold evolve. rewrite Hk, <- app_assoc. reflexivity. }
  rewrite decode_audio_spec, options_eq.
  unfold bind at 1, try_call. cbn [world after trace whisperKit].
  destruct (WhisperKit_transcribe kit (spec_samples audioData) _ w1) as [[err|results] w2].
  { unfold evolve. rewrite Hk, <- !app_assoc. reflexivity. }
  unfold bind, ret. rewrite log_eq. fold (text_of results).
  unfold evolve, after. cbn [world after trace whisperKit].
  rewrite Hk, <- !app_assoc. reflexivity.
Qed.

(** *** The encoded form of a response *)

Ltac lit_absurd :=
  match goal with
  | H : lit _ = lit _ |- _ => lit_discriminate H
  | H : lit ?s ≠ lit ?s |- _ => exfalso; apply H; reflexivity
  end.

Lemma Response_encode_lookup r key :
  Response_encode r !! key =
    if decide (lit "model_loaded" = key) then JBool <$> Response.model_loaded r
    else if decide (lit "error" = key) then JString <$> Response.error r
    else if decide (lit "text" = key) then JString <$> Response.text r
    else if decide (lit "success" = key) then JBool <$> Response.success r
    else if decide (lit "type" = key) then Some (JString (Response.type r))
    else None.
Proof.
  unfold Response_encode, encodeIfPresent.
  destruct (Response.model_loaded r), (Response.error r), (Response.text r),
    (Response.success r); cbn [fmap option_fmap option_map];
    rewrite ?lookup_insert, ?lookup_empty;
    repeat case_decide; subst; try reflexivity; lit_absurd.
Qed.

Lemma Response_encode_type r :
  Response_encode r !! lit "type" = Some (JString (Response.type r)).
Proof. rewrite Response_encode_lookup. repeat case_decide; try reflexivity; lit_absurd. Qed.

Lemma Response_encode_success r :
  Response_encode r !! lit "success" = JBool <$> Response.success r.
Proof. rewrite Response_encode_lookup. repeat case_decide; try reflexivity; lit_absurd. Qed.

Lemma Response_encode_text r :
  Response_encode r !! lit "text" = JString <$> Response.text r.
Proof. rewrite Response_encode_lookup. repeat case_decide; try reflexivity; lit_absurd. Qed.

Lemma Response_encode_error r :
  Response_encode r !! lit "error" = JString <$> Response.error r.
Proof. rewrite Response_encode_lookup. repeat case_decide; try reflexivity; lit_absurd. Qed.

Lemma Response_encode_model_loaded r :
  Response_encode r !! lit "model_loaded" = JBool <$> Response.model_loaded r.
Proof. rewrite Response_encode_lookup. repeat case_decide; try reflexivity; lit_absurd. Qed.

Lemma Response_encode_no_null r key : Response_encode r !! key ≠ Some JNull.
Proof.
  rewrite Response_encode_lookup.
  repeat case_decide; try done;
    by destruct (Response.model_loaded r), (Response.error r), (Response.text r),
      (Response.success r).
Qed.

Lemma reply_shape_encode r : response_shape r → reply_shape (Response_encode r).
Proof.
  intros Hr. unfold reply_shape.
  rewrite Response_encode_type, Response_encode_success, Response_encode_text,
    Response_encode_error, Response_encode_model_loaded.
  split; [apply Response_encode_no_null|].
  split; [by eexists|].
  destruct Hr as [(Hty & Hs & Ht & He & [b Hm])|(Hty & Hm & [b Hs])].
  - rewrite Hs, Ht, He, Hm. split; [by eauto|].
    intros H. exfalso. apply H. by rewrite Hty.
  - rewrite Hs, Hm. split; [|by eauto].
    intros H. exfalso. apply Hty. congruence.
Qed.

(** *** One command, whatever it is *)

Lemma events_since_evolve p k w evs : events_since p (evolve p k w evs) = evs.
Proof. unfold events_since, evolve. cbn. by rewrite drop_app_length. Qed.

Lemma evolve_evolve p k w evs k' w' evs' :
  evolve (evolve p k w evs) k' w' evs' = evolve p k' w' (evs ++ evs').
Proof. unfold evolve. cbn. by rewrite app_assoc. Qed.

Lemma evolve_id p : evolve p (whisperKit p) (world p) [] = p.
Proof. apply after_nil. Qed.

Lemma response_shape_outcome ty b t e :
  ty ≠ lit "health" → response_shape (Response_init ty (Some b) t e None).
Proof. intros Hty. right. cbn. eauto. Qed.

(** Every command but shutdown returns a response to print; on the way it
    prints nothing itself, and it changes the stored model only by
    unloading it or by a load that reports success. *)
Lemma dispatch_not_shutdown request p :
  Request.type request ≠ lit "shutdown" →
  ∃ response k w evs,
    dispatch request p = (Returned response, evolve p k w evs)
    ∧ replies evs = []
    ∧ response_shape response
    ∧ (k = None ∨ k = whisperKit p ∨ Response_encode response = loaded_ok).
Proof.
  intros Hsd.
  destruct (decide (Request.type request = lit "load")) as [Hty|Hn1].
  { rewrite dispatch_load by done.
    destruct (Request.model_path request) as [modelPath|].
    - unfold do_catch, bind. rewrite loadModel_eq.
      destruct (WhisperKit_init (config_for modelPath) (world p)) as [[err|kit] w].
      + eexists _, _, _, _. split; [reflexivity|]. split; [reflexivity|].
        split; [|by auto]. apply response_shape_outcome. intros H; lit_absurd.
      + eexists _, _, _, _. split; [reflexivity|]. split; [reflexivity|].
        split; [|by auto]. apply response_shape_outcome. intros H; lit_absurd.
    - eexists _, (whisperKit p), (world p), []. rewrite evolve_id.
      split; [reflexivity|]. split; [reflexivity|].
      split; [|by auto]. apply response_shape_outcome. intros H; lit_absurd. }
  destruct (decide (Request.type request = lit "transcribe")) as [Hty|Hn2].
  { rewrite dispatch_transcribe by done.
    destruct (Request.audio_path request) as [audioPath|].
    - unfold do_catch, bind.
      destruct (whisperKit p) as [kit|] eqn:Hk.
      + rewrite (transcribe_loaded _ _ _ kit Hk). cbv zeta. rewrite <- Hk.
        destruct (Data_contentsOf audioPath (world p)) as [[err|audioData] w1].
        { eexists _, _, _, _. split; [reflexivity|]. split; [reflexivity|].
          split; [|by auto]. apply response_shape_outcome. intros H; lit_absurd. }
        destruct (WhisperKit_transcribe kit _ _ w1) as [[err|results] w2].
        { eexists _, _, _, _. split; [reflexivity|]. split; [reflexivity|].
          split; [|by auto]. apply response_shape_outcome. intros H; lit_absurd. }
        eexists _, _, _, _. split; [reflexivity|]. split; [reflexivity|].
        split; [|by auto]. apply response_shape_outcome. intros H; lit_absurd.
      + rewrite transcribe_unloaded by done.
        eexists _, (whisperKit p), (world p), []. rewrite evolve_id.
        split; [reflexivity|]. split; [reflexivity|].
        split; [|by auto]. apply response_shape_outcome. intros H; lit_absurd.
    - eexists _, (whisperKit p), (world p), []. rewrite evolve_id.
      split; [reflexivity|]. split; [reflexivity|].
      split; [|by auto]. apply response_shape_outcome. intros H; lit_absurd. }
  destruct (decide (Request.type request = lit "unload")) as [Hty|Hn3].
  { rewrite dispatch_unload by done.
    eexists _, _, _, _. split; [reflexivity|]. split; [reflexivity|].
    split; [|by auto]. apply response_shape_outcome. intros H; lit_absurd. }
  destruct (decide (Request.type request = lit "health")) as [Hty|Hn4].
  { rewrite dispatch_health by done.
    eexists _, (whisperKit p), (world p), []. rewrite evolve_id.
    split; [reflexivity|]. split; [reflexivity|].
    split; [|by auto]. left. cbn. eauto 10. }
  rewrite dispatch_unknown by done.
  eexists _, (whisperKit p), (world p), []. rewrite evolve_id.
  split; [reflexivity|]. split; [reflexivity|].
  split; [|by auto]. apply response_shape_outcome. intros H; lit_absurd.
Qed.

Lemma replies_app evs1 evs2 : replies (evs1 ++ evs2) = replies evs1 ++ replies evs2.
Proof. unfold replies. apply omap_app. Qed.

Lemma is_command_true kind line :
  is_command kind line = true ↔
  line ≠ [] ∧ ∃ request, decoder_decode line = Some request ∧ Request.type request = kind.
Proof.
  unfold is_command. destruct line as [|c line]; cbn [isEmpty negb andb].
  { split; [done|]. by intros [? _]. }
  destruct (decoder_decode (c :: line)) as [request|].
  - rewrite bool_decide_eq_true. split.
    + intros Hty. split; [done|]. by exists request.
    + intros [_ (r & Hr & Hty)]. congruence.
  - split; [done|]. by intros [_ (r & Hr & _)].
Qed.

(** One iteration of the loop: either the line is no shutdown command, the
    body returns, and a non-empty line has had exactly one reply; or it is
    one, and the body prints the acknowledgement, logs and exits with 0. *)
Lemma loop_body_step line p :
  ∃ k w evs,
    Forall reply_shape (replies evs)
    ∧ ((is_command (lit "shutdown") line = false
        ∧ loop_body line p = (Returned tt, evolve p k w evs)
        ∧ length (replies evs) = (if isEmpty line then 0 else 1)%nat
        ∧ (k = None ∨ k = whisperKit p ∨ loaded_ok ∈ replies evs))
       ∨ (is_command (lit "shutdown") line = true
          ∧ loop_body line p = (Exited 0, evolve p k w evs)
          ∧ k = whisperKit p ∧ w = world p
          ∧ evs = [StdoutPrint (Response_encode
                      (Response_init (lit "shutdown_ack") (Some true) None None None));
                   StdoutFlush; logged (lit "Shutdown requested, exiting")])).
Proof.
  destruct (decide (line = [])) as [->|Hne].
  { exists (whisperKit p), (world p), []. split; [constructor|]. left.
    rewrite evolve_id. repeat split; auto. }
  assert (His : isEmpty line = false) by (by destruct line).
  destruct (decoder_decode line) as [request|] eqn:Hdec.
  2:{ exists (whisperKit p), (world p),
        [StdoutPrint (Response_encode
           (Response_init (lit "error") (Some false) None
              (Some (lit "Invalid JSON request")) None)); StdoutFlush].
      rewrite loop_body_undecodable by done.
      rewrite write_response_eq, evolve_after, His. split.
      - cbn. apply Forall_singleton, reply_shape_encode.
        apply response_shape_outcome. intros H; lit_absurd.
      - left. repeat split; auto.
        destruct (is_command _ line) eqn:Hc; [|done].
        apply is_command_true in Hc as [_ (r & Hr & _)]. congruence. }
  rewrite (loop_body_decoded line request) by done. unfold bind at 1.
  destruct (decide (Request.type request = lit "shutdown")) as [Hty|Hty].
  - exists (whisperKit p), (world p),
      [StdoutPrint (Response_encode
         (Response_init (lit "shutdown_ack") (Some true) None None None));
       StdoutFlush; logged (lit "Shutdown requested, exiting")].
    split; [|right].
    2:{ split. { apply is_command_true. eauto. }
        rewrite dispatch_shutdown by done. unfold bind.
        rewrite write_response_eq, log_eq, after_after. unfold exit.
        rewrite evolve_after. repeat split; reflexivity. }
    cbn. apply Forall_singleton, reply_shape_encode.
    apply response_shape_outcome. intros H; lit_absurd.
  - destruct (dispatch_not_shutdown request p Hty)
      as (response & k & w & evs & Hd & Hre & Hshape & Hk).
    rewrite Hd, write_response_eq.
    exists k, w, (evs ++ [StdoutPrint (Response_encode response); StdoutFlush]).
    rewrite replies_app, Hre, His. cbn. split.
    { by apply Forall_singleton, reply_shape_encode. }
    left. split.
    { destruct (is_command _ line) eqn:Hc; [|done].
      apply is_command_true in Hc as [_ (r & Hr & Hr')]. congruence. }
    split. { unfold evolve, after. cbn. by rewrite app_assoc. }
    split; [done|].
    destruct Hk as [Hk|[Hk|Hk]]; auto. right; right. rewrite Hk. set_solver.
Qed.

(** *** Runs of lines *)

Lemma nonempty_count_cons (line : SwiftString) (rest : list SwiftString) :
  length (filter (λ l : SwiftString, l ≠ []) (line :: rest))
  = ((if isEmpty line then 0 else 1) + length (filter (λ l : SwiftString, l ≠ []) rest))%nat.
Proof.
  destruct line as [|c line]; cbn [isEmpty].
  - by rewrite filter_cons_False by (intros H; by apply H).
  - by rewrite filter_cons_True.
Qed.

(** A run of lines without a shutdown command returns, having printed one
    well-shaped reply for each non-empty line. *)
Lemma run_lines_no_shutdown pre p :
  Forall (λ l, is_command (lit "shutdown") l = false) pre →
  ∃ k w evs,
    run_lines pre p = (Returned tt, evolve p k w evs)
    ∧ Forall reply_shape (replies evs)
    ∧ length (replies evs) = length (filter (λ l : SwiftString, l ≠ []) pre)
    ∧ (k = None ∨ k = whisperKit p ∨ loaded_ok ∈ replies evs).
Proof.
  intros Hpre. revert p. induction Hpre as [|line rest Hline _ IH]; intros p.
  { exists (whisperKit p), (world p), []. rewrite evolve_id.
    split; [done|]. split; [constructor|]. split; [done|]. auto. }
  destruct (loop_body_step line p) as (k & w & evs & Hshape & Hstep).
  destruct Hstep as [(_ & Hl & Hlen & Hk)|(Hc & _)]; [|congruence].
  destruct (IH (evolve p k w evs)) as (k' & w' & evs' & Hr & Hshape' & Hlen' & Hk').
  exists k', w', (evs ++ evs').
  cbn [run_lines]. rewrite Hl, Hr, evolve_evolve, replies_app.
  split; [done|]. split; [by apply Forall_app|].
  split. { rewrite length_app, nonempty_count_cons. lia. }
  cbn [whisperKit evolve] in Hk'. rewrite elem_of_app.
  destruct Hk' as [->|[->|Hin]]; auto.
  destruct Hk as [->|[->|Hin]]; auto.
Qed.

Lemma run_lines_app pre1 pre2 p q :
  run_lines pre1 p = (Returned tt, q) →
  run_lines (pre1 ++ pre2) p = run_lines pre2 q.
Proof.
  revert p. induction pre1 as [|line rest IH]; intros p Hr.
  { cbn in Hr. by injection Hr as ->. }
  cbn [run_lines app] in *.
  destruct (loop_body line p) as [[[]| | |] p']; try discriminate Hr.
  by apply IH.
Qed.

Lemma main_loop_app pre rest p q :
  run_lines pre p = (Returned tt, q) →
  main_loop (pre ++ rest) p = main_loop rest q.
Proof.
  revert p. induction pre as [|line pre IH]; intros p Hr.
  { cbn in Hr. by injection Hr as ->. }
  cbn [run_lines app main_loop] in *.
  destruct (loop_body line p) as [[[]| | |] p']; try discriminate Hr.
  by apply IH.
Qed.

Lemma first_shutdown stdin :
  Exists (λ l, is_command (lit "shutdown") l = true) stdin →
  ∃ pre line post,
    stdin = pre ++ line :: post
    ∧ Forall (λ l, is_command (lit "shutdown") l = false) pre
    ∧ is_command (lit "shutdown") line = true.
Proof.
  induction stdin as [|l stdin IH]; intros Hex; [by apply Exists_nil in Hex|].
  destruct (is_command (lit "shutdown") l) eqn:Hl.
  - exists [], l, stdin. repeat split; [constructor|done].
  - apply Exists_cons in Hex as [Hex|Hex]; [congruence|].
    destruct (IH Hex) as (pre & line & post & -> & Hpre & Hline).
    exists (l :: pre), line, post. repeat split; [by constructor|done].
Qed.

(** ** The claims *)

(** C1, as amended. A transcribe command processed while no model is
    loaded is answered by a "transcription" reply with success=false, and
    nothing but the reply is added to the process: no log, no file read, no
    decoding, no inference, engine state and world as before.  When the
    command names an audio_path the engine's [transcribe] is entered and
    throws the "No model loaded" error at its first guard; when it names
    none, the loop's own guard answers "Missing audio_path" and the engine
    is not entered. *)
Theorem transcribe_while_unloaded (line : SwiftString) (request : Request.t)
    (p : Process) :
  line ≠ [] → decoder_decode line = Some request →
  Request.type request = lit "transcribe" →
  whisperKit p = None →
  (∀ audioPath language,
     transcribe audioPath language p
     = (Thrown (NSError (lit "WhisperKitSidecar") 1 (lit "No model loaded")), p))
  ∧ ∃ response,
      dispatch request p = (Returned response, p)
      ∧ Response.type response = lit "transcription"
      ∧ Response.success response = Some false
      ∧ Response.error response
        = Some (match Request.audio_path request with
                | Some _ => lit "No model loaded"
                | None => lit "Missing audio_path"
                end)
      ∧ loop_body line p
        = (Returned tt, after p [StdoutPrint (Response_encode response); StdoutFlush])
      ∧ whisperKit (after p [StdoutPrint (Response_encode response); StdoutFlush]) = None
      ∧ filter (λ e, is_capability_call e = true)
          (events_since p (after p [StdoutPrint (Response_encode response); StdoutFlush]))
        = [].
Proof.
  intros Hne Hdec Hty Hk. split.
  { intros. by apply transcribe_unloaded. }
  assert (∃ response, dispatch request p = (Returned response, p)
            ∧ Response.type response = lit "transcription"
            ∧ Response.success response = Some false
            ∧ Response.error response
              = Some (match Request.audio_path request with
                      | Some _ => lit "No model loaded"
                      | None => lit "Missing audio_path"
                      end)) as (response & Hd & H1 & H2 & H3).
  { rewrite dispatch_transcribe by done.
    destruct (Request.audio_path request) as [audioPath|].
    - unfold do_catch, bind. rewrite transcribe_unloaded by done.
      eexists. split; [reflexivity|]. by cbn.
    - eexists. split; [reflexivity|]. by cbn. }
  exists response. repeat split; try done.
  - rewrite (loop_body_decoded line request) by done.
    unfold bind. rewrite Hd. apply write_response_eq.
  - by rewrite events_since_after.
Qed.

(** C3. A load whose model construction throws: the assignment to the
    engine's stored model is never reached, so the engine state after the
    command is the state before it (the same handle, or still none); the
    reply is a "loaded" with success=false and the error's description. *)
Theorem load_failure_keeps_engine_state (line modelPath : SwiftString)
    (request : Request.t) (p : Process) (err : SwiftError) (w' : World) :
  line ≠ [] → decoder_decode line = Some request →
  Request.type request = lit "load" →
  Request.model_path request = Some modelPath →
  WhisperKit_init (config_for modelPath) (world p) = (inl err, w') →
  let response :=
    Response_init (lit "loaded") (Some false) None
      (Some (localizedDescription err)) None in
  let p' :=
    evolve p (whisperKit p) w'
      [logged (lit "Loading model from: " ++ modelPath);
       ModelInit (config_for modelPath)] in
  loadModel modelPath p = (Thrown err, p')
  ∧ dispatch request p = (Returned response, p')
  ∧ loop_body line p
    = (Returned tt, after p' [StdoutPrint (Response_encode response); StdoutFlush])
  ∧ whisperKit (after p' [StdoutPrint (Response_encode response); StdoutFlush])
    = whisperKit p
  ∧ Response_encode response
    = json_object [(lit "error", JString (localizedDescription err));
                   (lit "success", JBool false);
                   (lit "type", JString (lit "loaded"))].
Proof.
  intros Hne Hdec Hty Hpath Hinit response p'.
  assert (Hload : loadModel modelPath p = (Thrown err, p')).
  { rewrite loadModel_eq, Hinit. reflexivity. }
  assert (Hd : dispatch request p = (Returned response, p')).
  { rewrite dispatch_load, Hpath by done. unfold do_catch, bind. by rewrite Hload. }
  repeat split; try done.
  rewrite (loop_body_decoded line request) by done.
  unfold bind. rewrite Hd. apply write_response_eq.
Qed.

(** C4. Unload succeeds from every engine state and leaves no model loaded:
    the reply is an "unloaded" with success=true, a second unload right
    after it gives the same reply and the same state, and when no model was
    loaded the engine state is what it was. *)
Theorem unload_idempotent (line : SwiftString) (request : Request.t) (p : Process) :
  line ≠ [] → decoder_decode line = Some request →
  Request.type request = lit "unload" →
  let response := Response_init (lit "unloaded") (Some true) None None None in
  let reply :=
    [logged (lit "Model unloaded"); StdoutPrint (Response_encode response);
     StdoutFlush] in
  dispatch request p
  = (Returned response, evolve p None (world p) [logged (lit "Model unloaded")])
  ∧ loop_body line p = (Returned tt, evolve p None (world p) reply)
  ∧ run_lines [line; line] p = (Returned tt, evolve p None (world p) (reply ++ reply))
  ∧ (whisperKit p = None → evolve p None (world p) reply = after p reply)
  ∧ Response_encode response
    = json_object [(lit "success", JBool true); (lit "type", JString (lit "unloaded"))].
Proof.
  intros Hne Hdec Hty response reply.
  assert (Hd : ∀ q, dispatch request q
                    = (Returned response, evolve q None (world q) [logged (lit "Model unloaded")])).
  { intros q. rewrite dispatch_unload by done. reflexivity. }
  assert (Hl : ∀ q, loop_body line q = (Returned tt, evolve q None (world q) reply)).
  { intros q. rewrite (loop_body_decoded line request) by done.
    unfold bind. rewrite Hd, write_response_eq. unfold evolve, after. cbn.
    by rewrite <- app_assoc. }
  repeat split; try done.
  - cbn [run_lines]. rewrite Hl, Hl. unfold evolve. cbn. by rewrite <- app_assoc.
  - intros Hk. unfold evolve, after. by rewrite Hk.
Qed.

(** C5. A non-empty line that does not decode to a request, or decodes to
    one whose type the switch has no case for: exactly one reply is printed,
    an "error" with success=false (the fixed text "Invalid JSON request", or
    "Unknown command: " followed by the type); engine state and world are as
    before, and the loop goes on with the next line. *)
Theorem malformed_or_unknown_line (line : SwiftString) (p : Process) :
  line ≠ [] →
  match decoder_decode line with
  | None => True
  | Some request => Request.type request ∉ known_types
  end →
  let message :=
    match decoder_decode line with
    | None => lit "Invalid JSON request"
    | Some request => lit "Unknown command: " ++ Request.type request
    end in
  let response := Response_init (lit "error") (Some false) None (Some message) None in
  let p' := after p [StdoutPrint (Response_encode response); StdoutFlush] in
  loop_body line p = (Returned tt, p')
  ∧ replies (events_since p p') = [Response_encode response]
  ∧ whisperKit p' = whisperKit p ∧ world p' = world p
  ∧ (∀ rest, main_loop (line :: rest) p = main_loop rest p')
  ∧ Response_encode response
    = json_object [(lit "error", JString message); (lit "success", JBool false);
                   (lit "type", JString (lit "error"))].
Proof.
  intros Hne Hcase message response p'.
  assert (Hl : loop_body line p = (Returned tt, p')).
  { subst p' response message.
    destruct (decoder_decode line) as [request|] eqn:Hdec.
    - rewrite (loop_body_decoded line request) by done.
      unfold known_types in Hcase. rewrite !not_elem_of_cons in Hcase.
      destruct Hcase as (H1 & H2 & H3 & H4 & H5 & _).
      unfold bind. rewrite dispatch_unknown by done. apply write_response_eq.
    - rewrite loop_body_undecodable by done. apply write_response_eq. }
  repeat split; try done.
  - subst p'. by rewrite events_since_after.
  - intros rest. cbn [main_loop]. by rewrite Hl.
Qed.

(** C7. A load without model_path, or a transcribe without audio_path: the
    reply is of the command's own type, "loaded" or "transcription", with
    success=false and an error naming the missing field; it is not an
    "error" reply, and the engine is not entered: the process gains the
    reply and nothing else. *)
Theorem missing_required_field (line : SwiftString) (request : Request.t)
    (p : Process) :
  line ≠ [] → decoder_decode line = Some request →
  (Request.type request = lit "load" ∧ Request.model_path request = None)
  ∨ (Request.type request = lit "transcribe" ∧ Request.audio_path request = None) →
  let kind :=
    if decide (Request.type request = lit "load")
    then lit "loaded" else lit "transcription" in
  let message :=
    if decide (Request.type request = lit "load")
    then lit "Missing model_path" else lit "Missing audio_path" in
  let response := Response_init kind (Some false) None (Some message) None in
  let p' := after p [StdoutPrint (Response_encode response); StdoutFlush] in
  dispatch request p = (Returned response, p)
  ∧ loop_body line p = (Returned tt, p')
  ∧ kind ≠ lit "error"
  ∧ filter (λ e, is_capability_call e = true) (events_since p p') = []
  ∧ whisperKit p' = whisperKit p ∧ world p' = world p
  ∧ Response_encode response
    = json_object [(lit "error", JString message); (lit "success", JBool false);
                   (lit "type", JString kind)].
Proof.
  intros Hne Hdec Hcase kind message response p'.
  assert (Hd : dispatch request p = (Returned response, p)).
  { subst p' response message kind. destruct Hcase as [[Hty Hnone]|[Hty Hnone]].
    - rewrite dispatch_load, Hnone, !decide_True by done. reflexivity.
    - rewrite dispatch_transcribe, Hnone by done.
      rewrite !decide_False; [reflexivity|..];
        rewrite Hty; intros H; lit_discriminate H. }
  repeat split; try done.
  - rewrite (loop_body_decoded line request) by done.
    unfold bind. rewrite Hd. apply write_response_eq.
  - subst kind. case_decide as Hc; intros Hx; lit_discriminate Hx.
  - subst p'. by rewrite events_since_after.
Qed.

(** C6. An input with a shutdown command somewhere: the lines before the
    first one are processed in order, each non-empty one answered by exactly
    one reply, before anything of the shutdown is printed; then come one
    "shutdown_ack" reply, the flush and the exit with status 0; the lines
    after the shutdown command are left unread and unanswered. *)
Theorem shutdown_in_order (stdin : list SwiftString) (p : Process) :
  Exists (λ l, is_command (lit "shutdown") l = true) stdin →
  let ack :=
    Response_encode (Response_init (lit "shutdown_ack") (Some true) None None None) in
  ∃ pre line post p1,
    stdin = pre ++ line :: post
    ∧ Forall (λ l, is_command (lit "shutdown") l = false) pre
    ∧ is_command (lit "shutdown") line = true
    ∧ run_lines pre p = (Returned tt, p1)
    ∧ length (replies (events_since p p1))
      = length (filter (λ l : SwiftString, l ≠ []) pre)
    ∧ (∀ pre1 pre2, pre = pre1 ++ pre2 →
         ∃ q, run_lines pre1 p = (Returned tt, q)
              ∧ run_lines pre2 q = (Returned tt, p1)
              ∧ length (replies (events_since p q))
                = length (filter (λ l : SwiftString, l ≠ []) pre1)
              ∧ trace q `prefix_of` trace p1)
    ∧ main_loop stdin p
      = (Exited 0,
         after p1 [StdoutPrint ack; StdoutFlush;
                   logged (lit "Shutdown requested, exiting")],
         post)
    ∧ exit_status (Exited 0) = Some 0
    ∧ ack = json_object [(lit "success", JBool true);
                         (lit "type", JString (lit "shutdown_ack"))].
Proof.
  intros Hex ack.
  destruct (first_shutdown stdin Hex) as (pre & line & post & -> & Hpre & Hline).
  destruct (run_lines_no_shutdown pre p Hpre) as (k & w & evs & Hrun & _ & Hlen & _).
  exists pre, line, post, (evolve p k w evs).
  split; [done|]. split; [done|]. split; [done|]. split; [done|].
  split. { by rewrite events_since_evolve. }
  split.
  { intros pre1 pre2 ->. apply Forall_app in Hpre as [Hpre1 Hpre2].
    destruct (run_lines_no_shutdown pre1 p Hpre1) as (k1 & w1 & evs1 & Hrun1 & _ & Hlen1 & _).
    exists (evolve p k1 w1 evs1).
    split; [done|]. split. { by rewrite <- (run_lines_app pre1 pre2 p). }
    split. { by rewrite events_since_evolve. }
    destruct (run_lines_no_shutdown pre2 (evolve p k1 w1 evs1) Hpre2)
      as (k2 & w2 & evs2 & Hrun2 & _).
    rewrite (run_lines_app pre1 pre2 p _ Hrun1), Hrun2 in Hrun.
    injection Hrun as <-. by exists evs2. }
  split; [|done].
  rewrite (main_loop_app pre (line :: post) p _ Hrun). cbn [main_loop].
  destruct (loop_body_step line (evolve p k w evs)) as (k' & w' & evs' & _ & Hstep).
  destruct Hstep as [(Hc & _)|(_ & Hl & -> & -> & ->)]; [congruence|].
  rewrite Hl. reflexivity.
Qed.

(** C8. A health command: the reply is a "health" whose model_loaded says
    whether a model is stored in the engine, false from the start until a
    load has reported success; success, text and error are absent from it.
    No reply of the loop holds a null, and none but a health reply holds
    model_loaded. *)
Theorem health_reply (line : SwiftString) (request : Request.t) (p : Process) :
  line ≠ [] → decoder_decode line = Some request →
  Request.type request = lit "health" →
  let loaded := bool_decide (whisperKit p ≠ None) in
  let response := Response_init (lit "health") None None None (Some loaded) in
  let json :=
    json_object [(lit "model_loaded", JBool loaded);
                 (lit "type", JString (lit "health"))] in
  dispatch request p = (Returned response, p)
  ∧ Response_encode response = json
  ∧ loop_body line p = (Returned tt, after p [StdoutPrint json; StdoutFlush])
  ∧ json !! lit "success" = None ∧ json !! lit "text" = None
  ∧ json !! lit "error" = None
  ∧ (whisperKit p = None → loaded = false)
  ∧ (∀ w, whisperKit (initial w) = None)
  ∧ (∀ pre w,
       Forall (λ l, is_command (lit "shutdown") l = false) pre →
       ∃ p1, run_lines pre (initial w) = (Returned tt, p1)
             ∧ (loaded_ok ∉ replies (trace p1) → whisperKit p1 = None))
  ∧ (∀ line' q, Forall reply_shape (replies (events_since q (loop_body line' q).2))).
Proof.
  intros Hne Hdec Hty loaded response json.
  assert (Hd : dispatch request p = (Returned response, p)).
  { rewrite dispatch_health by done. reflexivity. }
  assert (He : Response_encode response = json) by reflexivity.
  split; [done|]. split; [done|].
  split.
  { rewrite (loop_body_decoded line request) by done.
    unfold bind. rewrite Hd, write_response_eq, He. reflexivity. }
  rewrite <- He, Response_encode_success, Response_encode_text, Response_encode_error.
  split; [done|]. split; [done|]. split; [done|].
  split. { intros Hk. subst loaded. rewrite Hk. by apply bool_decide_eq_false_2; auto. }
  split; [done|].
  split.
  { intros pre w Hpre.
    destruct (run_lines_no_shutdown pre (initial w) Hpre) as (k & w' & evs & Hrun & _ & _ & Hk).
    eexists. split; [exact Hrun|]. cbn. intros Hnot.
    destruct Hk as [->|[->|Hin]]; done. }
  intros line' q.
  destruct (loop_body_step line' q) as (k & w & evs & Hshape & Hstep).
  destruct Hstep as [(_ & -> & _)|(_ & -> & _)]; cbn [snd];
    by rewrite events_since_evolve.
Qed.

(** C2. Whatever bytes the audio file holds, decoding yields exactly
    floor(count / 4) samples and never traps; for N complete little-endian
    samples followed by at most three stray bytes these are the N samples
    of the complete part, the stray bytes having no effect. *)
Theorem decode_audio_drops_remainder (audioData : list Byte.byte) :
  ∃ audioSamples,
    decode_audio audioData = Some audioSamples
    ∧ length audioSamples = (length audioData / 4)%nat
    ∧ Forall (λ bits, 0 ≤ bits < 2 ^ 32) audioSamples
    ∧ ∀ (complete stray : list Byte.byte) (N : nat),
        audioData = complete ++ stray →
        length complete = (4 * N)%nat → (length stray ≤ 3)%nat →
        length audioSamples = N
        ∧ decode_audio complete = Some audioSamples
        ∧ ∀ samples,
            Forall (λ bits, 0 ≤ bits < 2 ^ 32) samples →
            complete = spec_fixture samples →
            audioSamples = samples.
Proof.
  exists (spec_samples audioData).
  split; [apply decode_audio_spec|]. split; [apply spec_samples_length|].
  split; [apply spec_samples_range|].
  intros complete stray N -> Hc Hs.
  rewrite (spec_samples_app_stray complete stray N) by done.
  split. { rewrite spec_samples_length, Hc, Nat.mul_comm. by apply Nat.div_mul. }
  split; [apply decode_audio_spec|].
  intros samples Hrange ->. by apply spec_samples_fixture.
Qed.

(** C9. A transcribe that succeeds: a model was loaded, the file was read,
    inference was called on the decoded samples with options that skip
    special tokens, suppress timestamps and carry a language exactly when
    the command gives one other than "auto"; the text returned is the
    results' texts joined by single spaces, trimmed of whitespace and
    newlines at both ends. *)
Theorem transcribe_success_text (audioPath : SwiftString)
    (language : option SwiftString) (p p' : Process) (text : SwiftString) :
  transcribe audioPath language p = (Returned text, p') →
  ∃ kit audioData w1 results,
    let options := spec_options language in
    whisperKit p = Some kit
    ∧ Data_contentsOf audioPath (world p) = (inr audioData, w1)
    ∧ decode_audio audioData = Some (spec_samples audioData)
    ∧ WhisperKit_transcribe kit (spec_samples audioData) options w1
      = (inr results, world p')
    ∧ Inference kit (spec_samples audioData) options ∈ events_since p p'
    ∧ text = trimmingCharacters whitespacesAndNewlines
               (joined (lit " ") (TranscriptionResult.text <$> results))
    ∧ spec_trimmed whitespacesAndNewlines
        (spec_joined (TranscriptionResult.text <$> results)) text
    ∧ DecodingOptions.skipSpecialTokens options = true
    ∧ DecodingOptions.withoutTimestamps options = true
    ∧ ∀ lang, DecodingOptions.language options = Some lang
              ↔ language = Some lang ∧ lang ≠ lit "auto".
Proof.
  intros Hrun.
  destruct (whisperKit p) as [kit|] eqn:Hk.
  2:{ rewrite transcribe_unloaded in Hrun by done. discriminate Hrun. }
  rewrite (transcribe_loaded _ _ _ kit Hk) in Hrun. cbv zeta in Hrun.
  destruct (Data_contentsOf audioPath (world p)) as [[err|audioData] w1] eqn:Hread;
    [discriminate Hrun|].
  destruct (WhisperKit_transcribe kit (spec_samples audioData) (spec_options language) w1)
    as [[err|results] w2] eqn:Hinf; [discriminate Hrun|].
  injection Hrun as <- <-.
  exists kit, audioData, w1, results. cbv zeta.
  split; [done|]. split; [done|]. split; [apply decode_audio_spec|].
  split; [done|].
  split. { rewrite events_since_evolve. set_solver. }
  split; [done|].
  split. { rewrite <- joined_spec. apply trimmingCharacters_spec. }
  split; [done|]. split; [done|]. apply spec_options_language.
Qed.

(** C10. A transcribe command for a readable file of fewer than four bytes
    while a model is loaded: the sample array is empty, inference is called
    with it all the same, and what the command returns is what inference
    gives; the sidecar has no check of its own on the sample count. *)
Theorem short_audio_file (line audioPath : SwiftString) (request : Request.t)
    (p : Process) (kit : Handle) (audioData : list Byte.byte) (w1 : World) :
  line ≠ [] → decoder_decode line = Some request →
  Request.type request = lit "transcribe" →
  Request.audio_path request = Some audioPath →
  whisperKit p = Some kit →
  Data_contentsOf audioPath (world p) = (inr audioData, w1) →
  (length audioData < 4)%nat →
  let options := spec_options (Request.language request) in
  let started :=
    logged (lit "Transcribing: " ++ audioPath ++ lit ", language: "
              ++ default (lit "auto") (Request.language request)) in
  decode_audio audioData = Some []
  ∧ transcribe audioPath (Request.language request) p =
      match WhisperKit_transcribe kit [] options w1 with
      | (inl err, w2) =>
          (Thrown err,
           evolve p (Some kit) w2
             [started; FileRead audioPath; Inference kit [] options])
      | (inr results, w2) =>
          (Returned (text_of results),
           evolve p (Some kit) w2
             [started; FileRead audioPath; Inference kit [] options;
              logged (lit "Transcription result: " ++ text_of results)])
      end
  ∧ Inference kit [] options ∈ events_since p (loop_body line p).2.
Proof.
  intros Hne Hdec Hty Hpath Hk Hread Hlen options started.
  assert (Hs : spec_samples audioData = []).
  { destruct audioData as [|? [|? [|? [|? ?]]]]; cbn in Hlen; try lia; reflexivity. }
  assert (Ht : transcribe audioPath (Request.language request) p =
      match WhisperKit_transcribe kit [] options w1 with
      | (inl err, w2) =>
          (Thrown err,
           evolve p (Some kit) w2
             [started; FileRead audioPath; Inference kit [] options])
      | (inr results, w2) =>
          (Returned (text_of results),
           evolve p (Some kit) w2
             [started; FileRead audioPath; Inference kit [] options;
              logged (lit "Transcription result: " ++ text_of results)])
      end).
  { rewrite (transcribe_loaded _ _ _ kit Hk). cbv zeta. rewrite Hread, Hs. reflexivity. }
  split. { by rewrite decode_audio_spec, Hs. }
  split; [exact Ht|].
  rewrite (loop_body_decoded line request) by done.
  unfold bind at 1. rewrite dispatch_transcribe, Hpath by done.
  unfold do_catch, bind. rewrite Ht.
  destruct (WhisperKit_transcribe kit [] options w1) as [[err|results] w2];
    unfold ret; rewrite write_response_eq; cbn [snd];
    unfold after, events_since, evolve; cbn [trace];
    rewrite <- app_assoc, drop_app_length; set_solver.
Qed.

(** ** Further properties of the decoder, the text assembly and the codecs *)

Lemma spec_samples_app complete rest N :
  length complete = (4 * N)%nat →
  spec_samples (complete ++ rest) = spec_samples complete ++ spec_samples rest.
Proof.
  revert N.
  induction complete as [| | | |b0 b1 b2 b3 tail IH] using quads_ind;
    intros N HN; cbn in HN; try lia; [reflexivity|].
  cbn. f_equal. apply (IH (N - 1)%nat). lia.
Qed.

(** X1. Decoding commutes with concatenation at a sample boundary: when the
    first chunk holds a whole number of samples, the samples of the two
    chunks put together are those of the first followed by those of the
    second. *)
Theorem decode_audio_app (first second : list Byte.byte) (N : nat) :
  length first = (4 * N)%nat →
  ∃ samples1 samples2,
    decode_audio first = Some samples1
    ∧ decode_audio second = Some samples2
    ∧ length samples1 = N
    ∧ decode_audio (first ++ second) = Some (samples1 ++ samples2).
Proof.
  intros HN. exists (spec_samples first), (spec_samples second).
  rewrite !decode_audio_spec, (spec_samples_app first second N HN).
  repeat split.
  rewrite spec_samples_length, HN, Nat.mul_comm. by apply Nat.div_mul.
Qed.

Lemma testbit_byte_val_high b n : 8 ≤ n → Z.testbit (byte_val b) n = false.
Proof.
  intros Hn. pose proof (byte_val_range b).
  destruct (Z.eq_dec (byte_val b) 0) as [->|Hne]; [apply Z.bits_0|].
  apply Z.bits_above_log2; [lia|].
  assert (Z.log2 (byte_val b) < 8) by (apply Z.log2_lt_pow2; lia). lia.
Qed.

Lemma testbit_shifted_byte b k n :
  0 ≤ k → 0 ≤ n →
  Z.testbit (Z.shiftl (byte_val b) k) n
  = (k <=? n) && (n <? k + 8) && Z.testbit (byte_val b) (n - k).
Proof.
  intros Hk Hn. rewrite Z.shiftl_spec by done.
  destruct (Z.leb_spec k n), (Z.ltb_spec n (k + 8)); cbn [andb]; try reflexivity.
  - apply testbit_byte_val_high. lia.
  - apply Z.testbit_neg_r. lia.
  - apply Z.testbit_neg_r. lia.
Qed.

Lemma Float_byte_of_bytes b0 b1 b2 b3 :
  Float_to_bytes (Float_of_bytes b0 b1 b2 b3) = [b0; b1; b2; b3].
Proof.
  assert (Hbyte : ∀ b v, v = byte_val b →
            default Byte.x00 (Byte.of_N (Z.to_N v)) = b).
  { intros b v ->. unfold byte_val. by rewrite N2Z.id, Byte.of_to_N. }
  assert (Hpiece : ∀ k b,
            (∀ n, 0 ≤ n → n < 8 →
                  Z.testbit (Float_of_bytes b0 b1 b2 b3) (n + 8 * k)
                  = Z.testbit (byte_val b) n) →
            0 ≤ k →
            Float_byte (Float_of_bytes b0 b1 b2 b3) k = b).
  { intros k b Hbits Hk. unfold Float_byte. apply Hbyte.
    apply Z.bits_inj'. intros n Hn.
    rewrite Z.land_spec, Z.shiftr_spec by done.
    change 255 with (Z.ones 8). rewrite Z.testbit_ones_nonneg by lia.
    destruct (Z.ltb_spec n 8).
    - rewrite Hbits by lia. apply andb_true_r.
    - rewrite testbit_byte_val_high by lia. apply andb_false_r. }
  assert (Hbits : ∀ m, 0 ≤ m →
            Z.testbit (Float_of_bytes b0 b1 b2 b3) m
            = Z.testbit (byte_val b0) m
              || ((8 <=? m) && (m <? 8 + 8) && Z.testbit (byte_val b1) (m - 8)
                  || ((16 <=? m) && (m <? 16 + 8) && Z.testbit (byte_val b2) (m - 16)
                      || (24 <=? m) && (m <? 24 + 8)
                         && Z.testbit (byte_val b3) (m - 24)))).
  { intros m Hm. unfold Float_of_bytes.
    rewrite !Z.lor_spec, !testbit_shifted_byte by lia. reflexivity. }
  unfold Float_to_bytes. f_equal; [|f_equal; [|f_equal; [|f_equal]]];
    apply Hpiece; try lia; intros n Hn0 Hn8; rewrite Hbits by lia;
    rewrite ?(testbit_byte_val_high b0) by lia;
    repeat match goal with
           | |- context [?a <=? ?b] => destruct (Z.leb_spec a b); try lia
           | |- context [?a <? ?b] => destruct (Z.ltb_spec a b); try lia
           end;
    cbn [andb orb]; rewrite ?orb_false_r; f_equal; lia.
Qed.

Lemma spec_fixture_samples bytes :
  spec_fixture (spec_samples bytes) = take (4 * (length bytes / 4)) bytes.
Proof.
  unfold spec_fixture.
  induction bytes as [| | | |b0 b1 b2 b3 rest IH] using quads_ind; try reflexivity.
  cbn [spec_samples mbind list_bind]. fold (mbind (M := list) Float_to_bytes (spec_samples rest)).
  rewrite Float_byte_of_bytes, IH.
  change (length (b0 :: b1 :: b2 :: b3 :: rest)) with (1 * 4 + length rest)%nat.
  rewrite Nat.div_add_l by done.
  replace (4 * (1 + length rest / 4))%nat with (S (S (S (S (4 * (length rest / 4)))))) by lia.
  reflexivity.
Qed.

(** X2. Decoding loses nothing but the stray tail: writing the decoded
    samples back as little-endian bytes gives the file's bytes up to the
    last whole sample, so two files of whole samples with the same decoding
    are the same file. *)
Theorem decode_audio_keeps_whole_samples (audioData : list Byte.byte) :
  ∃ samples,
    decode_audio audioData = Some samples
    ∧ spec_fixture samples = take (4 * (length audioData / 4)) audioData
    ∧ ∀ other N M,
        length audioData = (4 * N)%nat → length other = (4 * M)%nat →
        decode_audio other = Some samples → other = audioData.
Proof.
  exists (spec_samples audioData). split; [apply decode_audio_spec|].
  split; [apply spec_fixture_samples|].
  intros other N M HN HM Hother. rewrite decode_audio_spec in Hother.
  injection Hother as Hother.
  pose proof (spec_fixture_samples audioData) as H1.
  pose proof (spec_fixture_samples other) as H2.
  rewrite Hother, H1 in H2.
  rewrite HN, HM in H2.
  rewrite !(Nat.mul_comm 4), !Nat.div_mul, !(Nat.mul_comm _ 4) in H2 by done.
  rewrite <- HN, <- HM, !firstn_all in H2. done.
Qed.

Lemma drop_while_head {A} (p : A → bool) (l : list A) :
  (∀ c, head l = Some c → p c = false) → drop_while p l = l.
Proof.
  destruct l as [|x l]; [done|]. intros H. cbn. by rewrite (H x).
Qed.

Lemma drop_while_all {A} (p : A → bool) (l : list A) :
  Forall (λ c, p c = true) l → drop_while p l = [].
Proof. induction 1 as [|x l Hx _ IH]; [done|]. cbn. by rewrite Hx. Qed.

Lemma trimmingCharacters_fixed set s :
  (∀ c, head s = Some c → set c = false) →
  (∀ c, last s = Some c → set c = false) →
  trimmingCharacters set s = s.
Proof.
  intros Hh Hl. unfold trimmingCharacters.
  rewrite (drop_while_head set s Hh), drop_while_head, reverse_involutive; [done|].
  intros c Hc. apply Hl. by rewrite <- head_reverse.
Qed.

(** Trimming twice is trimming once; a string made of characters of the
    set only trims to the empty string; a string whose first and last
    characters are outside the set is left as it is. *)
Lemma trimmingCharacters_idempotent (set : UnicodeScalar → bool) (s : SwiftString) :
  trimmingCharacters set (trimmingCharacters set s) = trimmingCharacters set s
  ∧ (Forall (λ c, set c = true) s → trimmingCharacters set s = [])
  ∧ ((∀ c, head s = Some c → set c = false) →
     (∀ c, last s = Some c → set c = false) →
     trimmingCharacters set s = s).
Proof.
  split; [|split].
  - destruct (trimmingCharacters_spec set s) as (_ & _ & _ & _ & _ & Hh & Hl).
    by apply trimmingCharacters_fixed.
  - intros Hall. unfold trimmingCharacters. by rewrite (drop_while_all set s Hall).
  - apply trimmingCharacters_fixed.
Qed.

Lemma decode_String_spec o key s :
  decode_String o key = Some s ↔ o !! key = Some (JString s).
Proof.
  unfold decode_String.
  destruct (o !! key) as [[]|]; split; intros H; try discriminate H; congruence.
Qed.

Lemma decodeIfPresent_String_spec o key v :
  decodeIfPresent_String o key = Some v ↔ optional_field o key v.
Proof.
  unfold decodeIfPresent_String, optional_field.
  destruct (o !! key) as [[]|], v; split; intros H;
    try discriminate H; try destruct H as [H|H]; try discriminate H;
    try congruence; auto.
Qed.

(** X4. What decodes to a request: exactly a JSON object whose "type" is a
    string and whose "model_path", "audio_path" and "language" are each a
    string, null or absent; null and absent both give no value. Anything
    else, a missing or non-string type or a number where a string is due,
    is refused. *)
Theorem Request_init_from_spec (j : JSON) (request : Request.t) :
  Request_init_from j = Some request
  ↔ ∃ o, j = JObject o
         ∧ o !! lit "type" = Some (JString (Request.type request))
         ∧ optional_field o (lit "model_path") (Request.model_path request)
         ∧ optional_field o (lit "audio_path") (Request.audio_path request)
         ∧ optional_field o (lit "language") (Request.language request).
Proof.
  split.
  - destruct j as [| | | | |o]; try discriminate 1. cbn [Request_init_from].
    intros H. exists o. split; [done|].
    destruct (decode_String o (lit "type")) as [ty|] eqn:Hty; [|discriminate H].
    destruct (decodeIfPresent_String o (lit "model_path")) as [mp|] eqn:Hmp;
      [|discriminate H].
    destruct (decodeIfPresent_String o (lit "audio_path")) as [ap|] eqn:Hap;
      [|discriminate H].
    destruct (decodeIfPresent_String o (lit "language")) as [lg|] eqn:Hlg;
      [|discriminate H].
    cbn in H. injection H as <-. cbn.
    by rewrite <- decode_String_spec, <- !decodeIfPresent_String_spec.
  - intros (o & -> & Hty & Hmp & Hap & Hlg). cbn [Request_init_from].
    apply decode_String_spec in Hty. apply decodeIfPresent_String_spec in Hmp, Hap, Hlg.
    rewrite Hty, Hmp, Hap, Hlg. cbn. by destruct request.
Qed.

(** X5. Members the request has no coding key for are ignored: adding or
    changing any other member of the object changes nothing of what it
    decodes to, success or failure. *)
Theorem Request_init_from_ignores_other_keys (o : gmap SwiftString JSON)
    (key : SwiftString) (v : JSON) :
  key ∉ Request_keys →
  Request_init_from (JObject (<[key := v]> o)) = Request_init_from (JObject o).
Proof.
  unfold Request_keys. rewrite !not_elem_of_cons.
  intros (H1 & H2 & H3 & H4 & _).
  unfold Request_init_from, decode_String, decodeIfPresent_String.
  by rewrite !lookup_insert_ne.
Qed.

(** X6. The encoding of a response is faithful: two responses with the same
    JSON object are the same response, so the reader of a reply recovers
    type, success, text, error and model_loaded, present or absent. *)
Theorem Response_encode_inj (r1 r2 : Response.t) :
  Response_encode r1 = Response_encode r2 → r1 = r2.
Proof.
  intros H.
  assert (Hty := Response_encode_type r1). rewrite H, Response_encode_type in Hty.
  assert (Hs := Response_encode_success r1). rewrite H, Response_encode_success in Hs.
  assert (Ht := Response_encode_text r1). rewrite H, Response_encode_text in Ht.
  assert (He := Response_encode_error r1). rewrite H, Response_encode_error in He.
  assert (Hm := Response_encode_model_loaded r1).
  rewrite H, Response_encode_model_loaded in Hm.
  destruct r1 as [ty1 s1 t1 e1 m1], r2 as [ty2 s2 t2 e2 m2]. cbn in *.
  destruct s1, s2, t1, t2, e1, e2, m1, m2; cbn in *; congruence.
Qed.

(** ** What one command does, in full *)

Lemma well_formed_logged message : well_formed_event (logged message).
Proof. by exists message. Qed.

Lemma well_formed_ModelInit path : well_formed_event (ModelInit (config_for path)).
Proof. done. Qed.

Lemma well_formed_FileRead path : well_formed_event (FileRead path).
Proof. done. Qed.

Lemma well_formed_Inference kit audioData language :
  well_formed_event (Inference kit (spec_samples audioData) (spec_options language)).
Proof.
  split; [apply spec_samples_range|]. split; [done|]. split; [done|].
  intros H. apply spec_options_language in H as [_ H]. by apply H.
Qed.

Lemma reply_outcome_encode r : response_outcome r → reply_outcome (Response_encode r).
Proof.
  intros [Hs Ht]. unfold reply_outcome.
  rewrite Response_encode_type, Response_encode_success, Response_encode_text,
    Response_encode_error.
  destruct (Response.success r) as [[]|]; cbn in *.
  - rewrite Hs. split; [done|]. split; [done|]. split; [done|].
    intros Hx. rewrite Ht; [done|].
    destruct (Response.text r); [by eexists|by destruct Hx].
  - destruct Hs as [[m Hm] Htext]. rewrite Hm, Htext. cbn.
    split; [done|]. split; [by eauto|]. split; [done|]. by intros [? ?].
  - destruct Hs as [Htext He]. rewrite Htext, He. cbn.
    split; [done|]. split; [done|]. split; [done|]. by intros [? ?].
Qed.

Ltac solve_response_outcome :=
  split;
  [ cbn; first [ done | by eauto ]
  | let Hx := fresh "Hx" in
    cbn; intros Hx; first [ reflexivity | by destruct Hx ] ].

Ltac solve_response_shape :=
  first [ apply response_shape_outcome;
          let Hx := fresh "Hx" in intros Hx; vm_compute in Hx; discriminate Hx
        | left; cbn; eauto 10 ].

Ltac solve_well_formed :=
  repeat first
    [ apply Forall_nil_2
    | apply Forall_cons_2;
      [ first [ apply well_formed_logged | apply well_formed_ModelInit
              | apply well_formed_FileRead | apply well_formed_Inference ] | ] ].

Ltac solve_inference_handle :=
  let Hin := fresh "Hin" in
  intros ? ? ? Hin;
  repeat (apply elem_of_cons in Hin as [Hin|Hin];
          [ first [ discriminate Hin | injection Hin as -> -> ->; done ] | ]);
  by apply elem_of_nil in Hin.

Ltac solve_effects Hty :=
  split; [reflexivity|];
  split; [solve_well_formed|];
  split; [reflexivity|];
  split; [solve_inference_handle|];
  split; [cbn [Response.type Response_init]; rewrite Hty; reflexivity|];
  split; [first [ by intros Hne; exfalso; apply Hne
                | by intros _; left
                | by intros _; right ]|];
  split; [first [ by intros _ | intros Hf; vm_compute in Hf; discriminate Hf ]|];
  split; [first [ by intros _ _
                | let Ha := fresh "Ha" in
                  let Hb := fresh "Hb" in
                  intros Ha Hb; exfalso; first [by apply Ha | by apply Hb] ]|];
  split; [solve_response_shape|solve_response_outcome].

(** Every command but shutdown, with all that it does before its reply is
    printed. *)
Lemma dispatch_effects request p :
  Request.type request ≠ lit "shutdown" →
  ∃ response k w work,
    dispatch request p = (Returned response, evolve p k w work)
    ∧ Forall well_formed_event work
    ∧ filter (λ e, is_stdout e = true) work = []
    ∧ (∀ kit samples options,
         Inference kit samples options ∈ work → whisperKit p = Some kit)
    ∧ Response.type response = reply_kind (Request.type request)
    ∧ (k ≠ whisperKit p →
       Request.type request = lit "load" ∨ Request.type request = lit "unload")
    ∧ (filter (λ e, is_capability_call e = true) work = [] → w = world p)
    ∧ (Request.type request ≠ lit "load" →
       Request.type request ≠ lit "transcribe" →
       filter (λ e, is_capability_call e = true) work = [])
    ∧ response_shape response
    ∧ response_outcome response.
Proof.
  intros Hsd.
  destruct (decide (Request.type request = lit "load")) as [Hty|Hn1].
  { rewrite dispatch_load by done.
    destruct (Request.model_path request) as [modelPath|].
    - unfold do_catch, bind. rewrite loadModel_eq.
      destruct (WhisperKit_init (config_for modelPath) (world p)) as [[err|kit] w].
      + eexists _, _, _, _. solve_effects Hty.
      + eexists _, _, _, _. solve_effects Hty.
    - eexists _, (whisperKit p), (world p), []. rewrite evolve_id.
      solve_effects Hty. }
  destruct (decide (Request.type request = lit "transcribe")) as [Hty|Hn2].
  { rewrite dispatch_transcribe by done.
    destruct (Request.audio_path request) as [audioPath|].
    - unfold do_catch, bind.
      destruct (whisperKit p) as [kit|] eqn:Hk.
      + rewrite (transcribe_loaded _ _ _ kit Hk). cbv zeta.
        destruct (Data_contentsOf audioPath (world p)) as [[err|audioData] w1].
        { eexists _, _, _, _. solve_effects Hty. }
        destruct (WhisperKit_transcribe kit _ _ w1) as [[err|results] w2].
        { eexists _, _, _, _. solve_effects Hty. }
        eexists _, _, _, _. solve_effects Hty.
      + rewrite transcribe_unloaded by done.
        assert (Hid : evolve p None (world p) [] = p)
          by (rewrite <- Hk; apply evolve_id).
        eexists _, None, (world p), []. rewrite Hid.
        solve_effects Hty.
    - eexists _, (whisperKit p), (world p), []. rewrite evolve_id.
      solve_effects Hty. }
  destruct (decide (Request.type request = lit "unload")) as [Hty|Hn3].
  { rewrite dispatch_unload by done.
    eexists _, _, _, _. solve_effects Hty. }
  destruct (decide (Request.type request = lit "health")) as [Hty|Hn4].
  { rewrite dispatch_health by done.
    eexists _, (whisperKit p), (world p), []. rewrite evolve_id.
    solve_effects Hty. }
  rewrite dispatch_unknown by done.
  eexists _, (whisperKit p), (world p), []. rewrite evolve_id.
  split; [reflexivity|]. split; [constructor|]. split; [reflexivity|].
  split; [solve_inference_handle|].
  split. { unfold reply_kind. by rewrite !decide_False. }
  split; [by intros Hne; exfalso; apply Hne|]. split; [by intros _|].
  split; [by intros _|].
  split; [|solve_response_outcome].
  by apply response_shape_outcome.
Qed.

Lemma is_command_false kind line request :
  line ≠ [] → decoder_decode line = Some request →
  is_command kind line = false → Request.type request ≠ kind.
Proof.
  intros Hne Hdec Hc Hty.
  assert (is_command kind line = true) by (apply is_command_true; eauto).
  congruence.
Qed.

Lemma replies_no_stdout evs :
  filter (λ e, is_stdout e = true) evs = [] → replies evs = [].
Proof.
  induction evs as [|e evs IH]; [done|].
  destruct e; cbn;
    rewrite ?filter_cons_True by done; rewrite ?filter_cons_False by done;
    try discriminate 1; exact IH.
Qed.

(** One iteration of the loop, with all that it does. *)
Lemma loop_body_effects line p :
  ∃ o k w evs,
    loop_body line p = (o, evolve p k w evs)
    ∧ (o = Returned tt ∨ o = Exited 0)
    ∧ Forall well_formed_event evs
    ∧ filter (λ e, is_stdout e = true) evs
      = replies evs ≫= (λ r, [StdoutPrint r; StdoutFlush])
    ∧ (∀ kit samples options,
         Inference kit samples options ∈ evs → whisperKit p = Some kit)
    ∧ (k ≠ whisperKit p →
       is_command (lit "load") line = true ∨ is_command (lit "unload") line = true)
    ∧ (filter (λ e, is_capability_call e = true) evs = [] → w = world p)
    ∧ (∀ json, json ∈ replies evs →
         json !! lit "type"
         = Some (JString (match decoder_decode line with
                          | Some request => reply_kind (Request.type request)
                          | None => lit "error"
                          end)))
    ∧ length (replies evs) = (if isEmpty line then 0 else 1)%nat
    ∧ (is_command (lit "load") line = false →
       is_command (lit "transcribe") line = false →
       filter (λ e, is_capability_call e = true) evs = []).
Proof.
  destruct (decide (line = [])) as [->|Hne].
  { exists (Returned tt), (whisperKit p), (world p), []. rewrite evolve_id.
    split; [reflexivity|]. split; [by left|]. split; [constructor|].
    split; [reflexivity|]. split; [solve_inference_handle|].
    split; [by intros Hk; exfalso; apply Hk|]. split; [done|].
    split; [|done].
    intros json Hin. by apply elem_of_nil in Hin. }
  assert (His : isEmpty line = false) by (by destruct line).
  rewrite His.
  destruct (decoder_decode line) as [request|] eqn:Hdec.
  2:{ exists (Returned tt), (whisperKit p), (world p),
        [StdoutPrint (Response_encode
           (Response_init (lit "error") (Some false) None
              (Some (lit "Invalid JSON request")) None)); StdoutFlush].
      rewrite loop_body_undecodable by done.
      rewrite write_response_eq, evolve_after.
      split; [reflexivity|]. split; [by left|].
      split; [by repeat apply Forall_cons_2|].
      split; [reflexivity|]. split; [solve_inference_handle|].
      split; [by intros Hk; exfalso; apply Hk|]. split; [done|].
      split; [|done].
      intros json Hin. cbn in Hin. apply list_elem_of_singleton in Hin as ->.
      apply Response_encode_type. }
  rewrite (loop_body_decoded line request) by done. unfold bind at 1.
  destruct (decide (Request.type request = lit "shutdown")) as [Hty|Hty].
  - exists (Exited 0), (whisperKit p), (world p),
      [StdoutPrint (Response_encode
         (Response_init (lit "shutdown_ack") (Some true) None None None));
       StdoutFlush; logged (lit "Shutdown requested, exiting")].
    rewrite dispatch_shutdown by done. unfold bind.
    rewrite write_response_eq, log_eq, after_after. unfold exit.
    rewrite evolve_after.
    split; [reflexivity|]. split; [by right|].
    split. { repeat apply Forall_cons_2; try done. apply well_formed_logged. }
    split; [reflexivity|]. split; [solve_inference_handle|].
    split; [by intros Hk; exfalso; apply Hk|]. split; [done|].
    split; [|done].
    intros json Hin. cbn in Hin. apply list_elem_of_singleton in Hin as ->.
    rewrite Response_encode_type, Hty. reflexivity.
  - destruct (dispatch_effects request p Hty)
      as (response & k & w & work & Hd & Hwf & Hout & Hinf & Hkind & Hk & Hw & Hcap
          & _).
    rewrite Hd, write_response_eq.
    exists (Returned tt), k, w,
      (work ++ [StdoutPrint (Response_encode response); StdoutFlush]).
    split. { unfold evolve, after. cbn. by rewrite app_assoc. }
    split; [by left|].
    split. { apply Forall_app. split; [done|]. by repeat apply Forall_cons_2. }
    rewrite filter_app, replies_app, Hout, (replies_no_stdout work Hout).
    split; [reflexivity|].
    split.
    { intros kit samples options Hin. apply elem_of_app in Hin as [Hin|Hin].
      - by apply (Hinf kit samples options).
      - revert kit samples options Hin. solve_inference_handle. }
    split.
    { intros Hne'. destruct (Hk Hne') as [Hl|Hu]; [left|right];
        apply is_command_true; eauto. }
    split.
    { intros Hf. apply Hw. rewrite filter_app in Hf.
      by apply app_eq_nil in Hf as [Hf _]. }
    split.
    { intros json Hin. cbn in Hin. apply list_elem_of_singleton in Hin as ->.
      by rewrite Response_encode_type, Hkind. }
    split; [done|].
    intros Hl Ht. rewrite filter_app, Hcap; [done|..];
      by eapply is_command_false.
Qed.

(** A property of event lists that holds of nothing, of what each iteration
    does and of the end-of-input log, and is kept by concatenation, holds of
    what the whole loop does. *)
Lemma main_loop_events (Q : list Event → Prop) :
  Q [] → (∀ a b, Q a → Q b → Q (a ++ b)) →
  (∀ line p o k w evs, loop_body line p = (o, evolve p k w evs) → Q evs) →
  Q [logged (lit "stdin closed, exiting")] →
  ∀ stdin p, ∃ o k w evs unread,
    main_loop stdin p = (o, evolve p k w evs, unread) ∧ Q evs.
Proof.
  intros Hnil Happ Hstep Hend stdin.
  induction stdin as [|line rest IH]; intros p.
  { exists (Returned tt), (whisperKit p), (world p),
      [logged (lit "stdin closed, exiting")], []. by split. }
  destruct (loop_body_effects line p) as (o & k & w & evs & Hl & Ho & _).
  pose proof (Hstep _ _ _ _ _ _ Hl) as HQ.
  cbn [main_loop]. rewrite Hl.
  destruct Ho as [->| ->].
  - destruct (IH (evolve p k w evs)) as (o' & k' & w' & evs' & unread & Hm & HQ').
    exists o', k', w', (evs ++ evs'), unread.
    rewrite Hm, evolve_evolve. split; [done|]. by apply Happ.
  - by exists (Exited 0), k, w, evs, rest.
Qed.

Lemma evolve_inj p k w evs k' w' evs' :
  evolve p k w evs = evolve p k' w' evs' → k = k' ∧ w = w' ∧ evs = evs'.
Proof.
  unfold evolve. intros [= -> -> H]. by apply app_inv_head in H as ->.
Qed.

Lemma loop_body_effects_eq line p o k w evs :
  loop_body line p = (o, evolve p k w evs) →
  (o = Returned tt ∨ o = Exited 0)
  ∧ Forall well_formed_event evs
  ∧ filter (λ e, is_stdout e = true) evs
    = replies evs ≫= (λ r, [StdoutPrint r; StdoutFlush])
  ∧ (∀ kit samples options,
       Inference kit samples options ∈ evs → whisperKit p = Some kit)
  ∧ (k ≠ whisperKit p →
     is_command (lit "load") line = true ∨ is_command (lit "unload") line = true)
  ∧ (filter (λ e, is_capability_call e = true) evs = [] → w = world p)
  ∧ (∀ json, json ∈ replies evs →
       json !! lit "type"
       = Some (JString (match decoder_decode line with
                        | Some request => reply_kind (Request.type request)
                        | None => lit "error"
                        end)))
  ∧ length (replies evs) = (if isEmpty line then 0 else 1)%nat
  ∧ (is_command (lit "load") line = false →
     is_command (lit "transcribe") line = false →
     filter (λ e, is_capability_call e = true) evs = []).
Proof.
  intros Hl.
  destruct (loop_body_effects line p) as (o' & k' & w' & evs' & Hl' & Hfacts).
  rewrite Hl in Hl'. apply pair_equal_spec in Hl' as [-> Hev].
  by apply evolve_inj in Hev as (-> & -> & ->).
Qed.

Lemma main_eq stdin w :
  main stdin w
  = main_loop stdin
      (after (initial w)
         [logged (lit "WhisperKit sidecar started, waiting for commands...")]).
Proof. reflexivity. Qed.

(** How a run of the loop ends: at the end of the input, every line read
    and no shutdown among them; or at the first shutdown command, the rest
    unread.  Either way there is one reply for each non-empty line read. *)
Lemma main_loop_outcome stdin p :
  ∃ o k w evs read unread,
    main_loop stdin p = (o, evolve p k w evs, unread)
    ∧ stdin = read ++ unread
    ∧ length (replies evs) = length (filter (λ l : SwiftString, l ≠ []) read)
    ∧ ((o = Returned tt ∧ unread = []
        ∧ Forall (λ l, is_command (lit "shutdown") l = false) stdin
        ∧ last evs = Some (logged (lit "stdin closed, exiting")))
       ∨ (o = Exited 0
          ∧ ∃ pre line, read = pre ++ [line]
              ∧ Forall (λ l, is_command (lit "shutdown") l = false) pre
              ∧ is_command (lit "shutdown") line = true)).
Proof.
  revert p. induction stdin as [|line rest IH]; intros p.
  { exists (Returned tt), (whisperKit p), (world p),
      [logged (lit "stdin closed, exiting")], [], [].
    split; [reflexivity|]. split; [done|]. split; [done|]. left. by repeat split. }
  destruct (loop_body_step line p) as (k & w & evs & _ & Hstep).
  cbn [main_loop].
  destruct Hstep as [(Hc & Hl & Hlen & _)|(Hc & Hl & -> & -> & ->)]; rewrite Hl.
  - destruct (IH (evolve p k w evs))
      as (o & k' & w' & evs' & read & unread & Hm & -> & Hlen' & Hend).
    exists o, k', w', (evs ++ evs'), (line :: read), unread.
    rewrite Hm, evolve_evolve. split; [done|]. split; [done|].
    split. { rewrite replies_app, length_app, nonempty_count_cons. lia. }
    destruct Hend as [(-> & -> & Hall & Hlast)|(-> & pre & l & -> & Hpre & Hsd)].
    + left. split; [done|]. split; [done|]. split; [by constructor|].
      rewrite last_app, Hlast. done.
    + right. split; [done|]. exists (line :: pre), l.
      split; [done|]. split; [by constructor|done].
  - exists (Exited 0), (whisperKit p), (world p),
      [StdoutPrint (Response_encode
         (Response_init (lit "shutdown_ack") (Some true) None None None));
       StdoutFlush; logged (lit "Shutdown requested, exiting")],
      [line], rest.
    split; [done|]. split; [done|].
    split. { apply is_command_true in Hc as [Hne _].
             by rewrite filter_cons_True. }
    right. split; [done|]. exists [], line. by repeat split.
Qed.

(** ** Whole runs *)

(** X7. Standard output carries the protocol and nothing else: in any run
    the writes to it are exactly the replies, each print followed at once by
    its flush; log lines never go there. *)
Theorem stdout_is_replies_each_flushed (stdin : list SwiftString) (w : World) :
  filter (λ e, is_stdout e = true) (trace (main stdin w).1.2)
  = replies (trace (main stdin w).1.2) ≫= (λ r, [StdoutPrint r; StdoutFlush]).
Proof.
  set (Q := λ evs : list Event,
         filter (λ e, is_stdout e = true) evs
         = replies evs ≫= (λ r, [StdoutPrint r; StdoutFlush])).
  destruct (main_loop_events Q) with (stdin := stdin)
    (p := after (initial w)
            [logged (lit "WhisperKit sidecar started, waiting for commands...")])
    as (o & k & w' & evs & unread & Hm & HQ).
  - reflexivity.
  - subst Q. cbn beta. intros a b Ha Hb.
    by rewrite filter_app, replies_app, bind_app, Ha, Hb.
  - intros line p o k w' evs Hl.
    by destruct (loop_body_effects_eq line p o k w' evs Hl) as (_ & _ & H & _).
  - reflexivity.
  - rewrite main_eq, Hm. cbn [fst snd evolve after initial trace app].
    subst Q. cbn beta in HQ.
    rewrite filter_cons_False by done. exact HQ.
Qed.

(** X8. Every line written to standard error, at start-up, during any
    command and at the end, begins with the tag "[whisperkit-sidecar] " and
    ends with a newline. *)
Theorem stderr_lines_are_tagged (stdin : list SwiftString) (w : World)
    (text : SwiftString) :
  StderrWrite text ∈ trace (main stdin w).1.2 →
  ∃ message, text = lit "[whisperkit-sidecar] " ++ message ++ newline.
Proof.
  destruct (main_loop_events (Forall well_formed_event)) with (stdin := stdin)
    (p := after (initial w)
            [logged (lit "WhisperKit sidecar started, waiting for commands...")])
    as (o & k & w' & evs & unread & Hm & HQ).
  - constructor.
  - intros a b Ha Hb. by apply Forall_app.
  - intros line p o k w' evs Hl.
    by destruct (loop_body_effects_eq line p o k w' evs Hl) as (_ & H & _).
  - apply Forall_singleton, well_formed_logged.
  - rewrite main_eq, Hm. cbn [fst snd]. unfold evolve, after, initial. cbn [trace].
    intros Hin. rewrite !elem_of_app in Hin. destruct Hin as [[Hin|Hin]|Hin].
    + by apply elem_of_nil in Hin.
    + apply list_elem_of_singleton in Hin.
      pose proof (well_formed_logged
                    (lit "WhisperKit sidecar started, waiting for commands..."))
        as Hwf.
      rewrite <- Hin in Hwf. exact Hwf.
    + rewrite Forall_forall in HQ. exact (HQ _ Hin).
Qed.

(** X9. Every inference call of any run gets samples that are 32-bit
    patterns and options with skipSpecialTokens and withoutTimestamps set
    and a language that is never the literal "auto". *)
Theorem inference_calls_are_well_formed (stdin : list SwiftString) (w : World)
    (kit : Handle) (audioArray : list Float) (options : DecodingOptions.t) :
  Inference kit audioArray options ∈ trace (main stdin w).1.2 →
  Forall (λ bits, 0 ≤ bits < 2 ^ 32) audioArray
  ∧ DecodingOptions.skipSpecialTokens options = true
  ∧ DecodingOptions.withoutTimestamps options = true
  ∧ DecodingOptions.language options ≠ Some (lit "auto").
Proof.
  destruct (main_loop_events (Forall well_formed_event)) with (stdin := stdin)
    (p := after (initial w)
            [logged (lit "WhisperKit sidecar started, waiting for commands...")])
    as (o & k & w' & evs & unread & Hm & HQ).
  - constructor.
  - intros a b Ha Hb. by apply Forall_app.
  - intros line p o k w' evs Hl.
    by destruct (loop_body_effects_eq line p o k w' evs Hl) as (_ & H & _).
  - apply Forall_singleton, well_formed_logged.
  - rewrite main_eq, Hm. cbn [fst snd evolve after initial trace app].
    intros Hin. apply elem_of_cons in Hin as [Hin|Hin]; [discriminate Hin|].
    rewrite Forall_forall in HQ. exact (HQ _ Hin).
Qed.

(** X10. Inference is never run without a model: whenever a command makes
    an inference call, the handle it calls is the one the engine stored when
    the command began. *)
Theorem inference_uses_stored_model (line : SwiftString) (p : Process)
    (kit : Handle) (audioArray : list Float) (options : DecodingOptions.t) :
  Inference kit audioArray options ∈ events_since p (loop_body line p).2 →
  whisperKit p = Some kit.
Proof.
  destruct (loop_body_effects line p) as (o & k & w & evs & Hl & _ & _ & _ & H & _).
  rewrite Hl. cbn [snd]. rewrite events_since_evolve. apply H.
Qed.

(** X11. The process always ends with status 0: no input makes the loop
    trap or leave an error uncaught; it ends by [exit(0)] when the input has
    a shutdown command and by running off the end of the input otherwise. *)
Theorem exit_status_is_zero (stdin : list SwiftString) (w : World) :
  exit_status (main stdin w).1.1 = Some 0
  ∧ ((main stdin w).1.1 = Exited 0
     ↔ Exists (λ l, is_command (lit "shutdown") l = true) stdin)
  ∧ ((main stdin w).1.1 = Returned tt
     ↔ Forall (λ l, is_command (lit "shutdown") l = false) stdin).
Proof.
  rewrite main_eq.
  destruct (main_loop_outcome stdin
              (after (initial w)
                 [logged (lit "WhisperKit sidecar started, waiting for commands...")]))
    as (o & k & w' & evs & read & unread & Hm & -> & _ & Hend).
  rewrite Hm. cbn [fst].
  destruct Hend as [(-> & -> & Hall & _)|(-> & pre & l & -> & Hpre & Hsd)].
  - split; [done|]. split; split; try done.
    intros Hex. apply Exists_exists in Hex as (l & Hin & Hl).
    rewrite Forall_forall in Hall. specialize (Hall l Hin). congruence.
  - split; [done|]. split; split; try done.
    + intros _. apply Exists_app. left. apply Exists_app. right. by constructor.
    + intros Hall. apply Forall_app in Hall as [Hall _].
      rewrite Forall_app, Forall_singleton in Hall. destruct Hall as [_ Hall].
      congruence.
Qed.

(** X12. End of input without a shutdown command: every line has been
    read, each non-empty one has had exactly one reply, the last thing done
    is the log line "stdin closed, exiting", and the top-level code returns. *)
Theorem end_of_input (stdin : list SwiftString) (w : World) :
  Forall (λ l, is_command (lit "shutdown") l = false) stdin →
  (main stdin w).1.1 = Returned tt
  ∧ (main stdin w).2 = []
  ∧ length (replies (trace (main stdin w).1.2))
    = length (filter (λ l : SwiftString, l ≠ []) stdin)
  ∧ last (trace (main stdin w).1.2) = Some (logged (lit "stdin closed, exiting")).
Proof.
  intros Hall. rewrite main_eq.
  destruct (main_loop_outcome stdin
              (after (initial w)
                 [logged (lit "WhisperKit sidecar started, waiting for commands...")]))
    as (o & k & w' & evs & read & unread & Hm & -> & Hlen & Hend).
  rewrite Hm. cbn [fst snd evolve after initial trace app].
  destruct Hend as [(-> & -> & _ & Hlast)|(-> & pre & l & -> & Hpre & Hsd)].
  - rewrite app_nil_r. split; [done|]. split; [done|]. split; [exact Hlen|].
    destruct evs; [discriminate Hlast|]. exact Hlast.
  - apply Forall_app in Hall as [Hall _].
    rewrite Forall_app, Forall_singleton in Hall. destruct Hall as [_ Hall].
      congruence.
Qed.

(** ** Single commands and their composition *)

Lemma after_evolve p k w evs evs' :
  after (evolve p k w evs) evs' = evolve p k w (evs ++ evs').
Proof. unfold after, evolve. cbn. by rewrite app_assoc. Qed.

Lemma loop_body_load_ok line modelPath request p kit w' :
  line ≠ [] → decoder_decode line = Some request →
  Request.type request = lit "load" →
  Request.model_path request = Some modelPath →
  WhisperKit_init (config_for modelPath) (world p) = (inr kit, w') →
  loop_body line p
  = (Returned tt,
     evolve p (Some kit) w'
       [logged (lit "Loading model from: " ++ modelPath);
        ModelInit (config_for modelPath);
        logged (lit "Model loaded successfully");
        StdoutPrint (Response_encode
          (Response_init (lit "loaded") (Some true) None None None));
        StdoutFlush]).
Proof.
  intros Hne Hdec Hty Hpath Hinit.
  rewrite (loop_body_decoded line request) by done. unfold bind at 1.
  rewrite dispatch_load, Hpath by done. unfold do_catch, bind.
  rewrite loadModel_eq, Hinit. unfold ret.
  by rewrite write_response_eq, after_evolve.
Qed.

Lemma loop_body_transcribe_read line audioPath request p kit audioData w1 :
  line ≠ [] → decoder_decode line = Some request →
  Request.type request = lit "transcribe" →
  Request.audio_path request = Some audioPath →
  whisperKit p = Some kit →
  Data_contentsOf audioPath (world p) = (inr audioData, w1) →
  let started :=
    logged (lit "Transcribing: " ++ audioPath ++ lit ", language: "
              ++ default (lit "auto") (Request.language request)) in
  let audioSamples := spec_samples audioData in
  let options := spec_options (Request.language request) in
  loop_body line p =
    match WhisperKit_transcribe kit audioSamples options w1 with
    | (inl err, w2) =>
        (Returned tt,
         evolve p (Some kit) w2
           [started; FileRead audioPath; Inference kit audioSamples options;
            StdoutPrint (Response_encode
              (Response_init (lit "transcription") (Some false) None
                 (Some (localizedDescription err)) None));
            StdoutFlush])
    | (inr results, w2) =>
        (Returned tt,
         evolve p (Some kit) w2
           [started; FileRead audioPath; Inference kit audioSamples options;
            logged (lit "Transcription result: " ++ text_of results);
            StdoutPrint (Response_encode
              (Response_init (lit "transcription") (Some true)
                 (Some (text_of results)) None None));
            StdoutFlush])
    end.
Proof.
  intros Hne Hdec Hty Hpath Hk Hread started audioSamples options.
  rewrite (loop_body_decoded line request) by done. unfold bind at 1.
  rewrite dispatch_transcribe, Hpath by done. unfold do_catch, bind.
  rewrite (transcribe_loaded _ _ _ kit Hk). cbv zeta. rewrite Hread.
  fold started audioSamples options.
  destruct (WhisperKit_transcribe kit audioSamples options w1) as [[err|results] w2];
    unfold ret; by rewrite write_response_eq, after_evolve.
Qed.

(** X13. A load whose model construction succeeds: the new handle replaces
    whatever the engine stored, the reply is a "loaded" with success=true,
    and a health command right after it reports model_loaded=true. *)
Theorem load_success (line modelPath : SwiftString) (request : Request.t)
    (p : Process) (kit : Handle) (w' : World) :
  line ≠ [] → decoder_decode line = Some request →
  Request.type request = lit "load" →
  Request.model_path request = Some modelPath →
  WhisperKit_init (config_for modelPath) (world p) = (inr kit, w') →
  let response := Response_init (lit "loaded") (Some true) None None None in
  let p' :=
    evolve p (Some kit) w'
      [logged (lit "Loading model from: " ++ modelPath);
       ModelInit (config_for modelPath);
       logged (lit "Model loaded successfully");
       StdoutPrint (Response_encode response); StdoutFlush] in
  loop_body line p = (Returned tt, p')
  ∧ Response_encode response
    = json_object [(lit "success", JBool true); (lit "type", JString (lit "loaded"))]
  ∧ ∀ line' request',
      line' ≠ [] → decoder_decode line' = Some request' →
      Request.type request' = lit "health" →
      loop_body line' p'
      = (Returned tt,
         after p' [StdoutPrint (json_object [(lit "model_loaded", JBool true);
                                             (lit "type", JString (lit "health"))]);
                   StdoutFlush]).
Proof.
  intros Hne Hdec Hty Hpath Hinit response p'.
  split; [|split; [reflexivity|]].
  - by apply (loop_body_load_ok line modelPath request).
  - intros line' request' Hne' Hdec' Hty'.
    rewrite (loop_body_decoded line' request') by done. unfold bind at 1.
    rewrite dispatch_health by done. unfold bind. rewrite isModelLoaded_eq.
    unfold ret. rewrite write_response_eq. reflexivity.
Qed.

(** X14. The model in use is the one loaded last: after a successful load,
    a transcribe of a readable file runs inference on the new handle,
    whatever handle the engine stored before the load, and on no other. *)
Theorem load_then_transcribe_uses_new_model (loadLine modelPath line audioPath : SwiftString)
    (loadRequest request : Request.t) (p : Process) (kit : Handle)
    (w1 w2 : World) (audioData : list Byte.byte) :
  loadLine ≠ [] → decoder_decode loadLine = Some loadRequest →
  Request.type loadRequest = lit "load" →
  Request.model_path loadRequest = Some modelPath →
  WhisperKit_init (config_for modelPath) (world p) = (inr kit, w1) →
  line ≠ [] → decoder_decode line = Some request →
  Request.type request = lit "transcribe" →
  Request.audio_path request = Some audioPath →
  Data_contentsOf audioPath w1 = (inr audioData, w2) →
  ∃ p', run_lines [loadLine; line] p = (Returned tt, p')
        ∧ whisperKit p' = Some kit
        ∧ Inference kit (spec_samples audioData) (spec_options (Request.language request))
          ∈ events_since p p'
        ∧ ∀ kit' audioArray options,
            Inference kit' audioArray options ∈ events_since p p' → kit' = kit.
Proof.
  intros Hne1 Hdec1 Hty1 Hpath1 Hinit Hne Hdec Hty Hpath Hread.
  cbn [run_lines].
  rewrite (loop_body_load_ok loadLine modelPath loadRequest p kit w1) by done.
  rewrite (loop_body_transcribe_read line audioPath request _ kit audioData w2)
    by done.
  cbv zeta.
  destruct (WhisperKit_transcribe kit _ _ w2) as [[err|results] w3];
    rewrite evolve_evolve;
    (eexists; split; [reflexivity|]; rewrite events_since_evolve;
     split; [reflexivity|]; split; [set_solver|];
     intros kit' audioArray options Hin;
     repeat (apply elem_of_cons in Hin as [Hin|Hin];
             [first [discriminate Hin | by injection Hin as -> _ _]|]);
     by apply elem_of_nil in Hin).
Qed.

(** X15. A transcribe whose file cannot be read: the read error's
    description comes back in a "transcription" reply with success=false,
    inference is not called, and the loaded model stays loaded. *)
Theorem transcribe_read_failure (line audioPath : SwiftString) (request : Request.t)
    (p : Process) (kit : Handle) (err : SwiftError) (w1 : World) :
  line ≠ [] → decoder_decode line = Some request →
  Request.type request = lit "transcribe" →
  Request.audio_path request = Some audioPath →
  whisperKit p = Some kit →
  Data_contentsOf audioPath (world p) = (inl err, w1) →
  let response :=
    Response_init (lit "transcription") (Some false) None
      (Some (localizedDescription err)) None in
  loop_body line p
  = (Returned tt,
     evolve p (Some kit) w1
       [logged (lit "Transcribing: " ++ audioPath ++ lit ", language: "
                  ++ default (lit "auto") (Request.language request));
        FileRead audioPath;
        StdoutPrint (Response_encode response); StdoutFlush])
  ∧ Response_encode response
    = json_object [(lit "error", JString (localizedDescription err));
                   (lit "success", JBool false);
                   (lit "type", JString (lit "transcription"))].
Proof.
  intros Hne Hdec Hty Hpath Hk Hread response. split; [|reflexivity].
  rewrite (loop_body_decoded line request) by done. unfold bind at 1.
  rewrite dispatch_transcribe, Hpath by done. unfold do_catch, bind.
  rewrite (transcribe_loaded _ _ _ kit Hk). cbv zeta. rewrite Hread.
  unfold ret. by rewrite write_response_eq, after_evolve.
Qed.

(** X16. A transcribe whose inference throws: the error's description comes
    back in a "transcription" reply with success=false, after the file read
    and the one inference call, and the loaded model stays loaded. *)
Theorem transcribe_inference_failure (line audioPath : SwiftString)
    (request : Request.t) (p : Process) (kit : Handle)
    (audioData : list Byte.byte) (err : SwiftError) (w1 w2 : World) :
  line ≠ [] → decoder_decode line = Some request →
  Request.type request = lit "transcribe" →
  Request.audio_path request = Some audioPath →
  whisperKit p = Some kit →
  Data_contentsOf audioPath (world p) = (inr audioData, w1) →
  WhisperKit_transcribe kit (spec_samples audioData)
    (spec_options (Request.language request)) w1 = (inl err, w2) →
  let response :=
    Response_init (lit "transcription") (Some false) None
      (Some (localizedDescription err)) None in
  decode_audio audioData = Some (spec_samples audioData)
  ∧ loop_body line p
    = (Returned tt,
       evolve p (Some kit) w2
         [logged (lit "Transcribing: " ++ audioPath ++ lit ", language: "
                    ++ default (lit "auto") (Request.language request));
          FileRead audioPath;
          Inference kit (spec_samples audioData)
            (spec_options (Request.language request));
          StdoutPrint (Response_encode response); StdoutFlush])
  ∧ Response_encode response
    = json_object [(lit "error", JString (localizedDescription err));
                   (lit "success", JBool false);
                   (lit "type", JString (lit "transcription"))].
Proof.
  intros Hne Hdec Hty Hpath Hk Hread Hinf response.
  split; [apply decode_audio_spec|]. split; [|reflexivity].
  rewrite (loop_body_transcribe_read line audioPath request p kit audioData w1)
    by done.
  cbv zeta. by rewrite Hinf.
Qed.

(** X17. A transcribe that goes through: the reply is a "transcription"
    with success=true and the assembled text, and no error member; it is
    printed after the file read, the inference call and the log of the
    result; the model stays loaded. *)
Theorem transcribe_success_reply (line audioPath : SwiftString)
    (request : Request.t) (p : Process) (kit : Handle)
    (audioData : list Byte.byte) (results : list TranscriptionResult.t)
    (w1 w2 : World) :
  line ≠ [] → decoder_decode line = Some request →
  Request.type request = lit "transcribe" →
  Request.audio_path request = Some audioPath →
  whisperKit p = Some kit →
  Data_contentsOf audioPath (world p) = (inr audioData, w1) →
  WhisperKit_transcribe kit (spec_samples audioData)
    (spec_options (Request.language request)) w1 = (inr results, w2) →
  let text :=
    trimmingCharacters whitespacesAndNewlines
      (joined (lit " ") (TranscriptionResult.text <$> results)) in
  let response :=
    Response_init (lit "transcription") (Some true) (Some text) None None in
  loop_body line p
  = (Returned tt,
     evolve p (Some kit) w2
       [logged (lit "Transcribing: " ++ audioPath ++ lit ", language: "
                  ++ default (lit "auto") (Request.language request));
        FileRead audioPath;
        Inference kit (spec_samples audioData)
          (spec_options (Request.language request));
        logged (lit "Transcription result: " ++ text);
        StdoutPrint (Response_encode response); StdoutFlush])
  ∧ Response_encode response
    = json_object [(lit "text", JString text); (lit "success", JBool true);
                   (lit "type", JString (lit "transcription"))]
  ∧ Response_encode response !! lit "error" = None.
Proof.
  intros Hne Hdec Hty Hpath Hk Hread Hinf text response.
  split; [|split; [reflexivity|by rewrite Response_encode_error]].
  rewrite (loop_body_transcribe_read line audioPath request p kit audioData w1)
    by done.
  cbv zeta. by rewrite Hinf.
Qed.

Lemma transcribe_auto audioPath p :
  transcribe audioPath (Some (lit "auto")) p = transcribe audioPath None p.
Proof.
  destruct (whisperKit p) as [kit|] eqn:Hk.
  - by rewrite !(transcribe_loaded _ _ _ kit Hk).
  - by rewrite !transcribe_unloaded.
Qed.

(** X18. A language of "auto" is the same as no language at all: the two
    commands give the same reply, the same calls with the same options, and
    even the same log lines. *)
Theorem language_auto_is_absent (request : Request.t) (p : Process) :
  Request.language request = Some (lit "auto") →
  dispatch request p
  = dispatch {| Request.type := Request.type request;
                Request.model_path := Request.model_path request;
                Request.audio_path := Request.audio_path request;
                Request.language := None |} p.
Proof.
  destruct request as [ty mp ap lg]. cbn. intros ->.
  unfold dispatch. cbn [Request.type Request.model_path Request.audio_path
                        Request.language].
  repeat case_decide; try reflexivity;
    destruct ap as [audioPath|]; try reflexivity;
    unfold do_catch, bind; by rewrite transcribe_auto.
Qed.

(** X19. What a command may touch: the stored model changes only by a load
    or an unload command; a line that is neither a load nor a transcribe
    command makes no call to the model runtime or the file system and leaves
    the world as it was. *)
Theorem commands_frame (line : SwiftString) (p : Process) :
  (whisperKit (loop_body line p).2 ≠ whisperKit p →
   is_command (lit "load") line = true ∨ is_command (lit "unload") line = true)
  ∧ (is_command (lit "load") line = false →
     is_command (lit "transcribe") line = false →
     filter (λ e, is_capability_call e = true)
       (events_since p (loop_body line p).2) = []
     ∧ world (loop_body line p).2 = world p).
Proof.
  destruct (loop_body_effects line p)
    as (o & k & w & evs & Hl & _ & _ & _ & _ & Hk & Hw & _ & _ & Hcap).
  rewrite Hl. cbn [snd]. rewrite events_since_evolve. split; [exact Hk|].
  intros H1 H2. split; [by apply Hcap|]. cbn. apply Hw. by apply Hcap.
Qed.

(** X20. Every non-empty line gets exactly one reply, and its type is fixed
    by the line alone: "loaded", "transcription", "unloaded", "health" or
    "shutdown_ack" for the five commands, whether they succeed or fail, and
    "error" for an unknown type or a line that does not decode. *)
Theorem reply_type_follows_request (line : SwiftString) (p : Process) :
  line ≠ [] →
  ∃ json,
    replies (events_since p (loop_body line p).2) = [json]
    ∧ json !! lit "type"
      = Some (JString (match decoder_decode line with
                       | Some request => reply_kind (Request.type request)
                       | None => lit "error"
                       end)).
Proof.
  intros Hne.
  destruct (loop_body_effects line p)
    as (o & k & w & evs & Hl & _ & _ & _ & _ & _ & _ & Hty & Hlen & _).
  rewrite Hl. cbn [snd]. rewrite events_since_evolve.
  destruct line as [|c line]; [done|]. cbn [isEmpty] in Hlen.
  destruct (replies evs) as [|json [|json' rest]]; try discriminate Hlen.
  exists json. split; [done|]. apply Hty. set_solver.
Qed.

(** X21. Unload, then transcribe: whatever was loaded before, the pair
    answers "unloaded" with success=true and then "transcription" with
    success=false and "No model loaded", without reading the file, without
    inference, and with the world untouched. *)
Theorem unload_then_transcribe (unloadLine line audioPath : SwiftString)
    (unloadRequest request : Request.t) (p : Process) :
  unloadLine ≠ [] → decoder_decode unloadLine = Some unloadRequest →
  Request.type unloadRequest = lit "unload" →
  line ≠ [] → decoder_decode line = Some request →
  Request.type request = lit "transcribe" →
  Request.audio_path request = Some audioPath →
  run_lines [unloadLine; line] p
  = (Returned tt,
     evolve p None (world p)
       [logged (lit "Model unloaded");
        StdoutPrint (json_object [(lit "success", JBool true);
                                  (lit "type", JString (lit "unloaded"))]);
        StdoutFlush;
        StdoutPrint (json_object [(lit "error", JString (lit "No model loaded"));
                                  (lit "success", JBool false);
                                  (lit "type", JString (lit "transcription"))]);
        StdoutFlush]).
Proof.
  intros Hne1 Hdec1 Hty1 Hne Hdec Hty Hpath. cbn [run_lines].
  rewrite (loop_body_decoded unloadLine unloadRequest) by done. unfold bind at 1.
  rewrite dispatch_unload by done. unfold bind at 1. rewrite unloadModel_eq.
  unfold ret at 1. rewrite write_response_eq, after_evolve.
  rewrite (loop_body_decoded line request) by done. unfold bind at 1.
  rewrite dispatch_transcribe, Hpath by done. unfold do_catch, bind.
  rewrite transcribe_unloaded by done.
  unfold ret. by rewrite write_response_eq, after_evolve.
Qed.

(** X3. The text a transcription returns is stable: trimming it again
    changes nothing; it is empty when inference gives no result at all, and
    when the joined texts of the results are whitespace only. *)
Theorem transcribed_text_is_stable (results : list TranscriptionResult.t) :
  trimmingCharacters whitespacesAndNewlines (text_of results) = text_of results
  ∧ text_of [] = []
  ∧ (Forall (λ c, whitespacesAndNewlines c = true)
       (joined (lit " ") (TranscriptionResult.text <$> results)) →
     text_of results = []).
Proof.
  unfold text_of.
  destruct (trimmingCharacters_idempotent whitespacesAndNewlines
              (joined (lit " ") (TranscriptionResult.text <$> results)))
    as (Hidem & Hall & _).
  split; [exact Hidem|]. split; [reflexivity|exact Hall].
Qed.

Lemma loop_body_replies_ex line p :
  ∃ o k w evs,
    loop_body line p = (o, evolve p k w evs)
    ∧ Forall (λ json, reply_shape json ∧ reply_outcome json) (replies evs).
Proof.
  destruct (decide (line = [])) as [->|Hne].
  { exists (Returned tt), (whisperKit p), (world p), []. rewrite evolve_id.
    split; [reflexivity|constructor]. }
  destruct (decoder_decode line) as [request|] eqn:Hdec.
  2:{ exists (Returned tt), (whisperKit p), (world p),
        [StdoutPrint (Response_encode
           (Response_init (lit "error") (Some false) None
              (Some (lit "Invalid JSON request")) None)); StdoutFlush].
      rewrite loop_body_undecodable by done.
      rewrite write_response_eq, evolve_after. split; [reflexivity|].
      apply Forall_singleton. split.
      - apply reply_shape_encode. solve_response_shape.
      - apply reply_outcome_encode. solve_response_outcome. }
  rewrite (loop_body_decoded line request) by done. unfold bind at 1.
  destruct (decide (Request.type request = lit "shutdown")) as [Hty|Hty].
  - exists (Exited 0), (whisperKit p), (world p),
      [StdoutPrint (Response_encode
         (Response_init (lit "shutdown_ack") (Some true) None None None));
       StdoutFlush; logged (lit "Shutdown requested, exiting")].
    rewrite dispatch_shutdown by done. unfold bind.
    rewrite write_response_eq, log_eq, after_after. unfold exit.
    rewrite evolve_after. split; [reflexivity|].
    apply Forall_singleton. split.
    + apply reply_shape_encode. solve_response_shape.
    + apply reply_outcome_encode. solve_response_outcome.
  - destruct (dispatch_effects request p Hty)
      as (response & k & w & work & Hd & _ & Hout & _ & _ & _ & _ & _ & Hshape & Hres).
    rewrite Hd, write_response_eq, after_evolve.
    exists (Returned tt), k, w,
      (work ++ [StdoutPrint (Response_encode response); StdoutFlush]).
    split; [reflexivity|].
    rewrite replies_app, (replies_no_stdout work Hout).
    apply Forall_singleton. split.
    + by apply reply_shape_encode.
    + by apply reply_outcome_encode.
Qed.

(** X22. Every reply of any run is well formed and consistent: it has a
    string type and no null member, a success flag unless it is a health
    reply, an error message exactly when success is false, and a text only
    in a successful "transcription". *)
Theorem replies_are_consistent (stdin : list SwiftString) (w : World) :
  Forall (λ json, reply_shape json ∧ reply_outcome json)
    (replies (trace (main stdin w).1.2)).
Proof.
  destruct (main_loop_events
              (λ evs, Forall (λ json, reply_shape json ∧ reply_outcome json)
                        (replies evs)))
    with (stdin := stdin)
         (p := after (initial w)
                 [logged (lit "WhisperKit sidecar started, waiting for commands...")])
    as (o & k & w' & evs & unread & Hm & HQ).
  - constructor.
  - intros a b Ha Hb. rewrite replies_app. by apply Forall_app.
  - intros line p o k w' evs Hl.
    destruct (loop_body_replies_ex line p) as (o' & k' & w'' & evs' & Hl' & H).
    rewrite Hl in Hl'. apply pair_equal_spec in Hl' as [_ Hev].
    by apply evolve_inj in Hev as (_ & _ & ->).
  - constructor.
  - rewrite main_eq, Hm. cbn [fst snd]. unfold evolve, after, initial. cbn [trace].
    rewrite <- app_assoc, !replies_app. exact HQ.
Qed.

End Sidecar.


Arguments whisperKit {Handle World} p.
Arguments world {Handle World} p.
Arguments trace {Handle World} p.
Arguments Build_Process {Handle World} whisperKit world trace.
Arguments StderrWrite {Handle} message.
Arguments StdoutPrint {Handle} json.
Arguments StdoutFlush {Handle}.
Arguments ModelInit {Handle} config.
Arguments FileRead {Handle} path.
Arguments Inference {Handle} kit audioArray options.
Arguments after {Handle World} p events.
Arguments evolve {Handle World} p k w events.
Arguments events_since {Handle World} p p'.
Arguments replies {Handle} events.
Arguments logged {Handle} message.
Arguments initial Handle {World} w.

(** ** The model run on the concrete environment *)

Abbreviation demo_decode := (decoder_decode Demo.JSON_parse).
Abbreviation demo_transcribe :=
  (transcribe Demo.Handle Demo.World Demo.Data_contentsOf Demo.WhisperKit_transcribe
     Demo.whitespacesAndNewlines).
Abbreviation demo_loop_body :=
  (loop_body Demo.Handle Demo.World Demo.WhisperKit_init Demo.Data_contentsOf
     Demo.WhisperKit_transcribe Demo.JSON_parse Demo.whitespacesAndNewlines).
Abbreviation demo_main_loop :=
  (main_loop Demo.Handle Demo.World Demo.WhisperKit_init Demo.Data_contentsOf
     Demo.WhisperKit_transcribe Demo.JSON_parse Demo.whitespacesAndNewlines).
Abbreviation demo_main :=
  (main Demo.Handle Demo.World Demo.WhisperKit_init Demo.Data_contentsOf
     Demo.WhisperKit_transcribe Demo.JSON_parse Demo.whitespacesAndNewlines).

(** A health query before any load. *)
Example health_before_load :
  replies (trace (demo_main [Demo.json_text [("type", "health")]%string] 0%nat).1.2)
  = [json_object [(lit "type", JString (lit "health"));
                  (lit "model_loaded", JBool false)]].
Proof. vm_compute. reflexivity. Qed.

(** A load without a path. *)
Example load_without_path :
  replies (trace (demo_main [Demo.json_text [("type", "load")]%string] 0%nat).1.2)
  = [json_object [(lit "type", JString (lit "loaded"));
                  (lit "success", JBool false);
                  (lit "error", JString (lit "Missing model_path"))]].
Proof. vm_compute. reflexivity. Qed.

(** A whole session: load, transcribe, an empty line, garbage, shutdown,
    and a health query that is never read. *)
Example session :
  let stdin :=
    [Demo.json_text [("type", "load"); ("model_path", "/models/tiny")];
     Demo.json_text [("type", "transcribe"); ("audio_path", "/tmp/speech.raw");
                     ("language", "dv")];
     [];
     lit "not json";
     Demo.json_text [("type", "shutdown")];
     Demo.json_text [("type", "health")]]%string in
  let '(outcome, p, unread) := demo_main stdin 0%nat in
  outcome = Exited 0
  ∧ unread = [Demo.json_text [("type", "health")]%string]
  ∧ whisperKit p = Some 7%nat
  ∧ replies (trace p)
    = [json_object [(lit "type", JString (lit "loaded")); (lit "success", JBool true)];
       json_object [(lit "type", JString (lit "transcription"));
                    (lit "success", JBool true);
                    (lit "text", JString (lit "hello world"))];
       json_object [(lit "type", JString (lit "error")); (lit "success", JBool false);
                    (lit "error", JString (lit "Invalid JSON request"))];
       json_object [(lit "type", JString (lit "shutdown_ack"));
                    (lit "success", JBool true)]]
  ∧ filter (λ e, is_capability_call Demo.Handle e = true) (trace p)
    = [ModelInit (config_for (lit "/models/tiny"));
       FileRead (lit "/tmp/speech.raw");
       Inference 7%nat [1065353216; 3221225472]
         {| DecodingOptions.language := Some (lit "dv");
            DecodingOptions.skipSpecialTokens := true;
            DecodingOptions.withoutTimestamps := true |}].
Proof. vm_compute. repeat split; reflexivity. Qed.

(** ** The claims at concrete inputs *)

Lemma transcribe_while_unloaded_witness :
  let line :=
    Demo.json_text [("type", "transcribe"); ("audio_path", "/tmp/speech.raw")]%string in
  let request :=
    {| Request.type := lit "transcribe"; Request.model_path := None;
       Request.audio_path := Some (lit "/tmp/speech.raw");
       Request.language := None |} in
  let p := initial Demo.Handle 0%nat in
  (line ≠ [] ∧ demo_decode line = Some request
   ∧ Request.type request = lit "transcribe" ∧ whisperKit p = None)
  ∧ ∃ response,
      demo_loop_body line p
      = (Returned tt, after p [StdoutPrint (Response_encode response); StdoutFlush])
      ∧ Response.error response = Some (lit "No model loaded").
Proof.
  intros line request p.
  assert (H1 : line ≠ []) by (vm_compute; discriminate).
  assert (H2 : demo_decode line = Some request) by (vm_compute; reflexivity).
  assert (H3 : Request.type request = lit "transcribe") by reflexivity.
  assert (H4 : whisperKit p = None) by reflexivity.
  split; [done|].
  destruct (transcribe_while_unloaded _ _ Demo.WhisperKit_init Demo.Data_contentsOf
              Demo.WhisperKit_transcribe Demo.JSON_parse Demo.whitespacesAndNewlines
              line request p H1 H2 H3 H4)
    as [_ (response & _ & _ & _ & He & Hl & _)].
  exists response. split; [exact Hl|exact He].
Defined.

(** C1 as first stated fails: a transcribe command without audio_path,
    processed while no model is loaded, meets every condition of the claim,
    yet its reply carries "Missing audio_path", not "No model loaded"; the
    guard of the loop answers it and the engine returns nothing. *)
Lemma transcribe_while_unloaded_counterexample :
  let line := Demo.json_text [("type", "transcribe")]%string in
  let request :=
    {| Request.type := lit "transcribe"; Request.model_path := None;
       Request.audio_path := None; Request.language := None |} in
  let p := initial Demo.Handle 0%nat in
  let reply :=
    Response_init (lit "transcription") (Some false) None
      (Some (lit "Missing audio_path")) None in
  (line ≠ [] ∧ demo_decode line = Some request
   ∧ Request.type request = lit "transcribe" ∧ whisperKit p = None)
  ∧ dispatch Demo.Handle Demo.World Demo.WhisperKit_init Demo.Data_contentsOf
      Demo.WhisperKit_transcribe Demo.whitespacesAndNewlines request p
    = (Returned reply, p)
  ∧ demo_loop_body line p
    = (Returned tt, after p [StdoutPrint (Response_encode reply); StdoutFlush])
  ∧ Response.error reply ≠ Some (lit "No model loaded")
  ∧ ¬ ∃ response p',
        dispatch Demo.Handle Demo.World Demo.WhisperKit_init Demo.Data_contentsOf
          Demo.WhisperKit_transcribe Demo.whitespacesAndNewlines request p
        = (Returned response, p')
        ∧ Response.error response = Some (lit "No model loaded").
Proof.
  intros line request p reply.
  assert (Hd : dispatch Demo.Handle Demo.World Demo.WhisperKit_init
                 Demo.Data_contentsOf Demo.WhisperKit_transcribe
                 Demo.whitespacesAndNewlines request p = (Returned reply, p))
    by (vm_compute; reflexivity).
  split.
  { split; [vm_compute; discriminate|].
    split; [vm_compute; reflexivity|]. split; reflexivity. }
  split; [exact Hd|].
  split; [vm_compute; reflexivity|].
  split; [intros H; vm_compute in H; discriminate H|].
  intros (response & p' & Hr & He). rewrite Hd in Hr.
  injection Hr as <- _. vm_compute in He. discriminate He.
Qed.

Lemma decode_audio_drops_remainder_witness :
  decode_audio (spec_fixture [1065353216; 3221225472] ++ [Byte.x7f])
  = Some [1065353216; 3221225472].
Proof.
  destruct (decode_audio_drops_remainder
              (spec_fixture [1065353216; 3221225472] ++ [Byte.x7f]))
    as (audioSamples & Hd & _ & _ & Hsplit).
  destruct (Hsplit (spec_fixture [1065353216; 3221225472]) [Byte.x7f] 2%nat)
    as (_ & _ & Hsame); [reflexivity|reflexivity|cbn; lia|].
  rewrite Hd. f_equal. apply Hsame; [|reflexivity].
  repeat constructor; lia.
Defined.

Lemma load_failure_keeps_engine_state_witness :
  let line :=
    Demo.json_text [("type", "load"); ("model_path", "/models/missing")]%string in
  let request :=
    {| Request.type := lit "load"; Request.model_path := Some (lit "/models/missing");
       Request.audio_path := None; Request.language := None |} in
  let p : Process Demo.Handle Demo.World :=
    {| whisperKit := Some 7%nat; world := 1%nat; trace := [] |} in
  let err := NSError (lit "WhisperKit") 2 (lit "Model folder not found") in
  (line ≠ [] ∧ demo_decode line = Some request
   ∧ Request.type request = lit "load"
   ∧ Request.model_path request = Some (lit "/models/missing")
   ∧ Demo.WhisperKit_init (config_for (lit "/models/missing")) (world p)
     = (inl err, 2%nat))
  ∧ ∃ p', demo_loop_body line p = (Returned tt, p') ∧ whisperKit p' = Some 7%nat.
Proof.
  intros line request p err.
  assert (H1 : line ≠ []) by (vm_compute; discriminate).
  assert (H2 : demo_decode line = Some request) by (vm_compute; reflexivity).
  assert (H3 : Request.type request = lit "load") by reflexivity.
  assert (H4 : Request.model_path request = Some (lit "/models/missing")) by reflexivity.
  assert (H5 : Demo.WhisperKit_init (config_for (lit "/models/missing")) (world p)
               = (inl err, 2%nat)) by (vm_compute; reflexivity).
  split; [done|].
  destruct (load_failure_keeps_engine_state _ _ Demo.WhisperKit_init Demo.Data_contentsOf
              Demo.WhisperKit_transcribe Demo.JSON_parse Demo.whitespacesAndNewlines
              line (lit "/models/missing") request p err 2%nat H1 H2 H3 H4 H5)
    as (_ & _ & Hl & Hk & _).
  eexists. split; [exact Hl|exact Hk].
Defined.

Lemma unload_idempotent_witness :
  let line := Demo.json_text [("type", "unload")]%string in
  let request :=
    {| Request.type := lit "unload"; Request.model_path := None;
       Request.audio_path := None; Request.language := None |} in
  let p : Process Demo.Handle Demo.World :=
    {| whisperKit := Some 7%nat; world := 1%nat; trace := [] |} in
  (line ≠ [] ∧ demo_decode line = Some request ∧ Request.type request = lit "unload")
  ∧ ∃ p', run_lines Demo.Handle Demo.World Demo.WhisperKit_init Demo.Data_contentsOf
            Demo.WhisperKit_transcribe Demo.JSON_parse Demo.whitespacesAndNewlines
            [line; line] p = (Returned tt, p')
          ∧ whisperKit p' = None.
Proof.
  intros line request p.
  assert (H1 : line ≠ []) by (vm_compute; discriminate).
  assert (H2 : demo_decode line = Some request) by (vm_compute; reflexivity).
  assert (H3 : Request.type request = lit "unload") by reflexivity.
  split; [done|].
  destruct (unload_idempotent _ _ Demo.WhisperKit_init Demo.Data_contentsOf
              Demo.WhisperKit_transcribe Demo.JSON_parse Demo.whitespacesAndNewlines
              line request p H1 H2 H3)
    as (_ & _ & Hr & _).
  eexists. split; [exact Hr|reflexivity].
Defined.

Lemma malformed_or_unknown_line_witness :
  let line := lit "not json" in
  let p := initial Demo.Handle 0%nat in
  (line ≠ []
   ∧ match demo_decode line with
     | None => True
     | Some request => Request.type request ∉ known_types
     end)
  ∧ replies (trace (demo_loop_body line p).2)
    = [json_object [(lit "error", JString (lit "Invalid JSON request"));
                    (lit "success", JBool false);
                    (lit "type", JString (lit "error"))]].
Proof.
  intros line p.
  assert (H1 : line ≠ []) by (vm_compute; discriminate).
  assert (H2 : match demo_decode line with
               | None => True
               | Some request => Request.type request ∉ known_types
               end) by (vm_compute; exact I).
  split; [done|].
  destruct (malformed_or_unknown_line _ _ Demo.WhisperKit_init Demo.Data_contentsOf
              Demo.WhisperKit_transcribe Demo.JSON_parse Demo.whitespacesAndNewlines
              line p H1 H2)
    as (Hl & _).
  rewrite Hl. reflexivity.
Defined.

Lemma shutdown_in_order_witness :
  let stdin :=
    [Demo.json_text [("type", "health")]; Demo.json_text [("type", "shutdown")];
     Demo.json_text [("type", "health")]]%string in
  let p := initial Demo.Handle 0%nat in
  Exists (λ l, is_command Demo.JSON_parse (lit "shutdown") l = true) stdin
  ∧ ∃ post p2, demo_main_loop stdin p = (Exited 0, p2, post).
Proof.
  intros stdin p.
  assert (H1 : Exists (λ l, is_command Demo.JSON_parse (lit "shutdown") l = true) stdin).
  { apply Exists_cons_tl, Exists_cons_hd. vm_compute. reflexivity. }
  split; [done|].
  destruct (shutdown_in_order _ _ Demo.WhisperKit_init Demo.Data_contentsOf
              Demo.WhisperKit_transcribe Demo.JSON_parse Demo.whitespacesAndNewlines
              stdin p H1)
    as (pre & line & post & p1 & _ & _ & _ & _ & _ & _ & Hm & _).
  eexists _, _. exact Hm.
Defined.

Lemma missing_required_field_witness :
  let line := Demo.json_text [("type", "load")]%string in
  let request :=
    {| Request.type := lit "load"; Request.model_path := None;
       Request.audio_path := None; Request.language := None |} in
  let p := initial Demo.Handle 0%nat in
  (line ≠ [] ∧ demo_decode line = Some request
   ∧ ((Request.type request = lit "load" ∧ Request.model_path request = None)
      ∨ (Request.type request = lit "transcribe"
         ∧ Request.audio_path request = None)))
  ∧ replies (trace (demo_loop_body line p).2)
    = [json_object [(lit "error", JString (lit "Missing model_path"));
                    (lit "success", JBool false);
                    (lit "type", JString (lit "loaded"))]].
Proof.
  intros line request p.
  assert (H1 : line ≠ []) by (vm_compute; discriminate).
  assert (H2 : demo_decode line = Some request) by (vm_compute; reflexivity).
  assert (H3 : (Request.type request = lit "load" ∧ Request.model_path request = None)
               ∨ (Request.type request = lit "transcribe"
                  ∧ Request.audio_path request = None))
    by (left; split; reflexivity).
  split; [done|].
  destruct (missing_required_field _ _ Demo.WhisperKit_init Demo.Data_contentsOf
              Demo.WhisperKit_transcribe Demo.JSON_parse Demo.whitespacesAndNewlines
              line request p H1 H2 H3)
    as (_ & Hl & _).
  rewrite Hl. reflexivity.
Defined.

Lemma health_reply_witness :
  let line := Demo.json_text [("type", "health")]%string in
  let request :=
    {| Request.type := lit "health"; Request.model_path := None;
       Request.audio_path := None; Request.language := None |} in
  let p := initial Demo.Handle 0%nat in
  (line ≠ [] ∧ demo_decode line = Some request ∧ Request.type request = lit "health")
  ∧ demo_loop_body line p
    = (Returned tt,
       after p [StdoutPrint (json_object [(lit "model_loaded", JBool false);
                                          (lit "type", JString (lit "health"))]);
                StdoutFlush]).
Proof.
  intros line request p.
  assert (H1 : line ≠ []) by (vm_compute; discriminate).
  assert (H2 : demo_decode line = Some request) by (vm_compute; reflexivity).
  assert (H3 : Request.type request = lit "health") by reflexivity.
  split; [done|].
  destruct (health_reply _ _ Demo.WhisperKit_init Demo.Data_contentsOf
              Demo.WhisperKit_transcribe Demo.JSON_parse Demo.whitespacesAndNewlines
              line request p H1 H2 H3)
    as (_ & _ & Hl & _).
  exact Hl.
Defined.

Lemma transcribe_success_text_witness :
  let p : Process Demo.Handle Demo.World :=
    {| whisperKit := Some 7%nat; world := 1%nat; trace := [] |} in
  let options :=
    {| DecodingOptions.language := Some (lit "dv");
       DecodingOptions.skipSpecialTokens := true;
       DecodingOptions.withoutTimestamps := true |} in
  let p' :=
    evolve p (Some 7%nat) 3%nat
      [logged (lit "Transcribing: /tmp/speech.raw, language: dv");
       FileRead (lit "/tmp/speech.raw");
       Inference 7%nat [1065353216; 3221225472] options;
       logged (lit "Transcription result: hello world")] in
  demo_transcribe (lit "/tmp/speech.raw") (Some (lit "dv")) p
  = (Returned (lit "hello world"), p')
  ∧ ∃ results,
      Demo.WhisperKit_transcribe 7%nat [1065353216; 3221225472] options 2%nat
      = (inr results, 3%nat)
      ∧ spec_trimmed Demo.whitespacesAndNewlines
          (spec_joined (TranscriptionResult.text <$> results)) (lit "hello world").
Proof.
  intros p options p'.
  assert (H1 : demo_transcribe (lit "/tmp/speech.raw") (Some (lit "dv")) p
               = (Returned (lit "hello world"), p')) by (vm_compute; reflexivity).
  split; [done|].
  destruct (transcribe_success_text _ _ Demo.Data_contentsOf Demo.WhisperKit_transcribe
              Demo.JSON_parse Demo.whitespacesAndNewlines
              (lit "/tmp/speech.raw") (Some (lit "dv")) p p' (lit "hello world") H1)
    as (kit & audioData & w1 & results & Hk & Hread & _ & Hinf & _ & _ & Htrim & _).
  injection Hk as <-. vm_compute in Hread. injection Hread as <- <-.
  exists results. split; [exact Hinf|exact Htrim].
Defined.

Lemma short_audio_file_witness :
  let line :=
    Demo.json_text [("type", "transcribe"); ("audio_path", "/tmp/short.raw")]%string in
  let request :=
    {| Request.type := lit "transcribe"; Request.model_path := None;
       Request.audio_path := Some (lit "/tmp/short.raw");
       Request.language := None |} in
  let p : Process Demo.Handle Demo.World :=
    {| whisperKit := Some 7%nat; world := 1%nat; trace := [] |} in
  (line ≠ [] ∧ demo_decode line = Some request
   ∧ Request.type request = lit "transcribe"
   ∧ Request.audio_path request = Some (lit "/tmp/short.raw")
   ∧ whisperKit p = Some 7%nat
   ∧ Demo.Data_contentsOf (lit "/tmp/short.raw") (world p)
     = (inr [Byte.x01; Byte.x02], 2%nat)
   ∧ (length [Byte.x01; Byte.x02] < 4)%nat)
  ∧ Inference 7%nat [] (spec_options None) ∈ events_since p (demo_loop_body line p).2.
Proof.
  intros line request p.
  assert (H1 : line ≠ []) by (vm_compute; discriminate).
  assert (H2 : demo_decode line = Some request) by (vm_compute; reflexivity).
  assert (H3 : Request.type request = lit "transcribe") by reflexivity.
  assert (H4 : Request.audio_path request = Some (lit "/tmp/short.raw")) by reflexivity.
  assert (H5 : whisperKit p = Some 7%nat) by reflexivity.
  assert (H6 : Demo.Data_contentsOf (lit "/tmp/short.raw") (world p)
               = (inr [Byte.x01; Byte.x02], 2%nat)) by (vm_compute; reflexivity).
  assert (H7 : (length [Byte.x01; Byte.x02] < 4)%nat) by (cbn; lia).
  split; [done|].
  destruct (short_audio_file _ _ Demo.WhisperKit_init Demo.Data_contentsOf
              Demo.WhisperKit_transcribe Demo.JSON_parse Demo.whitespacesAndNewlines
              line (lit "/tmp/short.raw") request p 7%nat [Byte.x01; Byte.x02] 2%nat
              H1 H2 H3 H4 H5 H6 H7)
    as (_ & _ & Hin).
  exact Hin.
Defined.

(** ** The further properties at concrete inputs *)

Arguments is_stdout {Handle} e.
Arguments is_capability_call {Handle} e.
Arguments well_formed_event {Handle} e.

Abbreviation demo_run_lines :=
  (run_lines Demo.Handle Demo.World Demo.WhisperKit_init Demo.Data_contentsOf
     Demo.WhisperKit_transcribe Demo.JSON_parse Demo.whitespacesAndNewlines).
Abbreviation demo_dispatch :=
  (dispatch Demo.Handle Demo.World Demo.WhisperKit_init Demo.Data_contentsOf
     Demo.WhisperKit_transcribe Demo.whitespacesAndNewlines).
Abbreviation lab_decode := (decoder_decode Lab.JSON_parse).
Abbreviation lab_loop_body :=
  (loop_body Demo.Handle Demo.World Demo.WhisperKit_init Demo.Data_contentsOf
     Lab.WhisperKit_transcribe Lab.JSON_parse Demo.whitespacesAndNewlines).

(** A session of failures: a file that does not exist, then one too short
    for a single sample, which the inference of this environment refuses. *)
Example failing_session :
  let stdin :=
    [Demo.json_text [("type", "load"); ("model_path", "/models/tiny")];
     Demo.json_text [("type", "transcribe"); ("audio_path", "/tmp/none.raw")];
     Demo.json_text [("type", "transcribe"); ("audio_path", "/tmp/short.raw")];
     Demo.json_text [("type", "health"); ("id", "7")]]%string in
  let '(outcome, p, unread) :=
    main Demo.Handle Demo.World Demo.WhisperKit_init Demo.Data_contentsOf
      Lab.WhisperKit_transcribe Lab.JSON_parse Demo.whitespacesAndNewlines
      stdin 0%nat in
  outcome = Returned tt ∧ unread = [] ∧ whisperKit p = Some 7%nat
  ∧ replies (trace p)
    = [json_object [(lit "type", JString (lit "loaded")); (lit "success", JBool true)];
       json_object [(lit "type", JString (lit "transcription"));
                    (lit "success", JBool false);
                    (lit "error", JString (lit "No such file"))];
       json_object [(lit "type", JString (lit "transcription"));
                    (lit "success", JBool false);
                    (lit "error", JString (lit "Audio is empty"))];
       json_object [(lit "type", JString (lit "health"));
                    (lit "model_loaded", JBool true)]].
Proof. vm_compute. repeat split; reflexivity. Qed.

Lemma decode_audio_app_witness :
  let first :=
    [Byte.x00; Byte.x00; Byte.x80; Byte.x3f; Byte.x00; Byte.x00; Byte.x00; Byte.xc0] in
  let second := [Byte.x00; Byte.x00; Byte.x00; Byte.x40; Byte.x7f] in
  length first = (4 * 2)%nat
  ∧ decode_audio (first ++ second) = Some [1065353216; 3221225472; 1073741824].
Proof.
  intros first second.
  assert (H1 : length first = (4 * 2)%nat) by reflexivity.
  split; [exact H1|].
  destruct (decode_audio_app first second 2%nat H1) as (s1 & s2 & Hd1 & Hd2 & _ & Hd).
  vm_compute in Hd1. vm_compute in Hd2.
  injection Hd1 as <-. injection Hd2 as <-. exact Hd.
Defined.

Lemma decode_audio_keeps_whole_samples_witness :
  spec_fixture [1065353216; 3221225472] = take 8 Demo.speech_raw.
Proof.
  destruct (decode_audio_keeps_whole_samples Demo.speech_raw) as (samples & Hd & Hf & _).
  vm_compute in Hd. injection Hd as <-. exact Hf.
Defined.

Lemma transcribed_text_is_stable_witness :
  let results :=
    [ {| TranscriptionResult.text := lit "  " |};
      {| TranscriptionResult.text := [10%N; 9%N] |} ] in
  Forall (λ c, Demo.whitespacesAndNewlines c = true)
    (joined (lit " ") (TranscriptionResult.text <$> results))
  ∧ text_of Demo.whitespacesAndNewlines results = [].
Proof.
  intros results.
  assert (H1 : Forall (λ c, Demo.whitespacesAndNewlines c = true)
                 (joined (lit " ") (TranscriptionResult.text <$> results))).
  { vm_compute. repeat constructor. }
  split; [exact H1|].
  destruct (transcribed_text_is_stable Demo.whitespacesAndNewlines results)
    as (_ & _ & Hall).
  exact (Hall H1).
Defined.

Lemma Request_init_from_ignores_other_keys_witness :
  let o : gmap SwiftString JSON := {[ lit "type" := JString (lit "health") ]} in
  (lit "id" ∉ Request_keys)
  ∧ Request_init_from (JObject (<[lit "id" := JNumber (lit "7")]> o))
    = Some {| Request.type := lit "health"; Request.model_path := None;
              Request.audio_path := None; Request.language := None |}.
Proof.
  intros o.
  assert (H1 : lit "id" ∉ Request_keys).
  { unfold Request_keys. rewrite !not_elem_of_cons.
    repeat split; try (intros H; vm_compute in H; discriminate H).
    apply not_elem_of_nil. }
  split; [exact H1|].
  rewrite (Request_init_from_ignores_other_keys o (lit "id") (JNumber (lit "7")) H1).
  vm_compute. reflexivity.
Defined.

Lemma Response_encode_inj_witness :
  let r1 := Response_init (lit "health") None None None (Some true) in
  let r2 :=
    {| Response.type := lit "health"; Response.success := None;
       Response.text := None; Response.error := None;
       Response.model_loaded := Some true |} in
  Response_encode r1 = Response_encode r2 ∧ r1 = r2.
Proof.
  intros r1 r2.
  assert (H1 : Response_encode r1 = Response_encode r2) by reflexivity.
  split; [exact H1|]. exact (Response_encode_inj r1 r2 H1).
Defined.

Lemma stderr_lines_are_tagged_witness :
  let stdin := [Demo.json_text [("type", "unload")]%string] in
  let text := lit "[whisperkit-sidecar] Model unloaded" ++ [10%N] in
  StderrWrite text ∈ trace (demo_main stdin 0%nat).1.2
  ∧ ∃ message, text = lit "[whisperkit-sidecar] " ++ message ++ [10%N].
Proof.
  intros stdin text.
  assert (H1 : StderrWrite text ∈ trace (demo_main stdin 0%nat).1.2).
  { apply list_elem_of_lookup. exists 1%nat. vm_compute. reflexivity. }
  split; [exact H1|].
  exact (stderr_lines_are_tagged _ _ Demo.WhisperKit_init Demo.Data_contentsOf
           Demo.WhisperKit_transcribe Demo.JSON_parse Demo.whitespacesAndNewlines
           stdin 0%nat text H1).
Defined.

Lemma inference_calls_are_well_formed_witness :
  let stdin :=
    [Demo.json_text [("type", "load"); ("model_path", "/models/tiny")];
     Demo.json_text [("type", "transcribe"); ("audio_path", "/tmp/speech.raw");
                     ("language", "auto")]]%string in
  let options :=
    {| DecodingOptions.language := None;
       DecodingOptions.skipSpecialTokens := true;
       DecodingOptions.withoutTimestamps := true |} in
  Inference 7%nat [1065353216; 3221225472] options
    ∈ trace (demo_main stdin 0%nat).1.2
  ∧ DecodingOptions.language options ≠ Some (lit "auto").
Proof.
  intros stdin options.
  assert (H1 : Inference 7%nat [1065353216; 3221225472] options
                 ∈ trace (demo_main stdin 0%nat).1.2).
  { apply list_elem_of_lookup. exists 8%nat. vm_compute. reflexivity. }
  split; [exact H1|].
  destruct (inference_calls_are_well_formed _ _ Demo.WhisperKit_init
              Demo.Data_contentsOf Demo.WhisperKit_transcribe Demo.JSON_parse
              Demo.whitespacesAndNewlines stdin 0%nat 7%nat
              [1065353216; 3221225472] options H1)
    as (_ & _ & _ & Hlang).
  exact Hlang.
Defined.

Lemma inference_uses_stored_model_witness :
  let line :=
    Demo.json_text [("type", "transcribe"); ("audio_path", "/tmp/speech.raw")]%string in
  let p : Process Demo.Handle Demo.World :=
    {| whisperKit := Some 7%nat; world := 1%nat; trace := [] |} in
  Inference 7%nat [1065353216; 3221225472] (spec_options None)
    ∈ events_since p (demo_loop_body line p).2
  ∧ whisperKit p = Some 7%nat.
Proof.
  intros line p.
  assert (H1 : Inference 7%nat [1065353216; 3221225472] (spec_options None)
                 ∈ events_since p (demo_loop_body line p).2).
  { apply list_elem_of_lookup. exists 2%nat. vm_compute. reflexivity. }
  split; [exact H1|].
  exact (inference_uses_stored_model _ _ Demo.WhisperKit_init Demo.Data_contentsOf
           Demo.WhisperKit_transcribe Demo.JSON_parse Demo.whitespacesAndNewlines
           line p 7%nat [1065353216; 3221225472] (spec_options None) H1).
Defined.

Lemma end_of_input_witness :
  let stdin := [Demo.json_text [("type", "health")]%string; []; lit "not json"] in
  Forall (λ l, is_command Demo.JSON_parse (lit "shutdown") l = false) stdin
  ∧ length (replies (trace (demo_main stdin 0%nat).1.2)) = 2%nat.
Proof.
  intros stdin.
  assert (H1 : Forall (λ l, is_command Demo.JSON_parse (lit "shutdown") l = false) stdin).
  { repeat apply Forall_cons_2; try (vm_compute; reflexivity). apply Forall_nil_2. }
  split; [exact H1|].
  destruct (end_of_input _ _ Demo.WhisperKit_init Demo.Data_contentsOf
              Demo.WhisperKit_transcribe Demo.JSON_parse Demo.whitespacesAndNewlines
              stdin 0%nat H1)
    as (_ & _ & Hlen & _).
  rewrite Hlen. vm_compute. reflexivity.
Defined.

Lemma load_success_witness :
  let line := Demo.json_text [("type", "load"); ("model_path", "/models/tiny")]%string in
  let request :=
    {| Request.type := lit "load"; Request.model_path := Some (lit "/models/tiny");
       Request.audio_path := None; Request.language := None |} in
  let p : Process Demo.Handle Demo.World :=
    {| whisperKit := Some 3%nat; world := 1%nat; trace := [] |} in
  (line ≠ [] ∧ demo_decode line = Some request
   ∧ Request.type request = lit "load"
   ∧ Request.model_path request = Some (lit "/models/tiny")
   ∧ Demo.WhisperKit_init (config_for (lit "/models/tiny")) (world p)
     = (inr 7%nat, 2%nat))
  ∧ whisperKit (demo_loop_body line p).2 = Some 7%nat.
Proof.
  intros line request p.
  assert (H1 : line ≠ []) by (vm_compute; discriminate).
  assert (H2 : demo_decode line = Some request) by (vm_compute; reflexivity).
  assert (H3 : Request.type request = lit "load") by reflexivity.
  assert (H4 : Request.model_path request = Some (lit "/models/tiny")) by reflexivity.
  assert (H5 : Demo.WhisperKit_init (config_for (lit "/models/tiny")) (world p)
               = (inr 7%nat, 2%nat)) by (vm_compute; reflexivity).
  split; [done|].
  destruct (load_success _ _ Demo.WhisperKit_init Demo.Data_contentsOf
              Demo.WhisperKit_transcribe Demo.JSON_parse Demo.whitespacesAndNewlines
              line (lit "/models/tiny") request p 7%nat 2%nat H1 H2 H3 H4 H5)
    as (Hl & _).
  rewrite Hl. reflexivity.
Defined.

Lemma load_then_transcribe_uses_new_model_witness :
  let loadLine :=
    Demo.json_text [("type", "load"); ("model_path", "/models/tiny")]%string in
  let loadRequest :=
    {| Request.type := lit "load"; Request.model_path := Some (lit "/models/tiny");
       Request.audio_path := None; Request.language := None |} in
  let line :=
    Demo.json_text [("type", "transcribe"); ("audio_path", "/tmp/speech.raw")]%string in
  let request :=
    {| Request.type := lit "transcribe"; Request.model_path := None;
       Request.audio_path := Some (lit "/tmp/speech.raw");
       Request.language := None |} in
  let p : Process Demo.Handle Demo.World :=
    {| whisperKit := Some 3%nat; world := 1%nat; trace := [] |} in
  (loadLine ≠ [] ∧ demo_decode loadLine = Some loadRequest
   ∧ Request.type loadRequest = lit "load"
   ∧ Request.model_path loadRequest = Some (lit "/models/tiny")
   ∧ Demo.WhisperKit_init (config_for (lit "/models/tiny")) (world p)
     = (inr 7%nat, 2%nat)
   ∧ line ≠ [] ∧ demo_decode line = Some request
   ∧ Request.type request = lit "transcribe"
   ∧ Request.audio_path request = Some (lit "/tmp/speech.raw")
   ∧ Demo.Data_contentsOf (lit "/tmp/speech.raw") 2%nat = (inr Demo.speech_raw, 3%nat))
  ∧ ∃ p', demo_run_lines [loadLine; line] p = (Returned tt, p')
          ∧ Inference 7%nat (spec_samples Demo.speech_raw) (spec_options None)
            ∈ events_since p p'.
Proof.
  intros loadLine loadRequest line request p.
  assert (H1 : loadLine ≠ []) by (vm_compute; discriminate).
  assert (H2 : demo_decode loadLine = Some loadRequest) by (vm_compute; reflexivity).
  assert (H3 : Request.type loadRequest = lit "load") by reflexivity.
  assert (H4 : Request.model_path loadRequest = Some (lit "/models/tiny"))
    by reflexivity.
  assert (H5 : Demo.WhisperKit_init (config_for (lit "/models/tiny")) (world p)
               = (inr 7%nat, 2%nat)) by (vm_compute; reflexivity).
  assert (H6 : line ≠ []) by (vm_compute; discriminate).
  assert (H7 : demo_decode line = Some request) by (vm_compute; reflexivity).
  assert (H8 : Request.type request = lit "transcribe") by reflexivity.
  assert (H9 : Request.audio_path request = Some (lit "/tmp/speech.raw"))
    by reflexivity.
  assert (H10 : Demo.Data_contentsOf (lit "/tmp/speech.raw") 2%nat
                = (inr Demo.speech_raw, 3%nat)) by (vm_compute; reflexivity).
  split; [done|].
  destruct (load_then_transcribe_uses_new_model _ _ Demo.WhisperKit_init
              Demo.Data_contentsOf Demo.WhisperKit_transcribe Demo.JSON_parse
              Demo.whitespacesAndNewlines
              loadLine (lit "/models/tiny") line (lit "/tmp/speech.raw")
              loadRequest request p 7%nat 2%nat 3%nat Demo.speech_raw
              H1 H2 H3 H4 H5 H6 H7 H8 H9 H10)
    as (p' & Hr & _ & Hin & _).
  exists p'. split; [exact Hr|exact Hin].
Defined.

Lemma transcribe_read_failure_witness :
  let line :=
    Demo.json_text [("type", "transcribe"); ("audio_path", "/tmp/none.raw")]%string in
  let request :=
    {| Request.type := lit "transcribe"; Request.model_path := None;
       Request.audio_path := Some (lit "/tmp/none.raw");
       Request.language := None |} in
  let p : Process Demo.Handle Demo.World :=
    {| whisperKit := Some 7%nat; world := 1%nat; trace := [] |} in
  let err := NSError (lit "NSCocoaErrorDomain") 260 (lit "No such file") in
  (line ≠ [] ∧ lab_decode line = Some request
   ∧ Request.type request = lit "transcribe"
   ∧ Request.audio_path request = Some (lit "/tmp/none.raw")
   ∧ whisperKit p = Some 7%nat
   ∧ Demo.Data_contentsOf (lit "/tmp/none.raw") (world p) = (inl err, 2%nat))
  ∧ replies (trace (lab_loop_body line p).2)
    = [json_object [(lit "error", JString (lit "No such file"));
                    (lit "success", JBool false);
                    (lit "type", JString (lit "transcription"))]].
Proof.
  intros line request p err.
  assert (H1 : line ≠ []) by (vm_compute; discriminate).
  assert (H2 : lab_decode line = Some request) by (vm_compute; reflexivity).
  assert (H3 : Request.type request = lit "transcribe") by reflexivity.
  assert (H4 : Request.audio_path request = Some (lit "/tmp/none.raw")) by reflexivity.
  assert (H5 : whisperKit p = Some 7%nat) by reflexivity.
  assert (H6 : Demo.Data_contentsOf (lit "/tmp/none.raw") (world p) = (inl err, 2%nat))
    by (vm_compute; reflexivity).
  split; [done|].
  destruct (transcribe_read_failure _ _ Demo.WhisperKit_init Demo.Data_contentsOf
              Lab.WhisperKit_transcribe Lab.JSON_parse Demo.whitespacesAndNewlines
              line (lit "/tmp/none.raw") request p 7%nat err 2%nat
              H1 H2 H3 H4 H5 H6)
    as (Hl & _).
  rewrite Hl. reflexivity.
Defined.

Lemma transcribe_inference_failure_witness :
  let line :=
    Demo.json_text [("type", "transcribe"); ("audio_path", "/tmp/short.raw")]%string in
  let request :=
    {| Request.type := lit "transcribe"; Request.model_path := None;
       Request.audio_path := Some (lit "/tmp/short.raw");
       Request.language := None |} in
  let p : Process Demo.Handle Demo.World :=
    {| whisperKit := Some 7%nat; world := 1%nat; trace := [] |} in
  let err := NSError (lit "WhisperKit") 3 (lit "Audio is empty") in
  (line ≠ [] ∧ lab_decode line = Some request
   ∧ Request.type request = lit "transcribe"
   ∧ Request.audio_path request = Some (lit "/tmp/short.raw")
   ∧ whisperKit p = Some 7%nat
   ∧ Demo.Data_contentsOf (lit "/tmp/short.raw") (world p)
     = (inr [Byte.x01; Byte.x02], 2%nat)
   ∧ Lab.WhisperKit_transcribe 7%nat (spec_samples [Byte.x01; Byte.x02])
       (spec_options (Request.language request)) 2%nat = (inl err, 3%nat))
  ∧ replies (trace (lab_loop_body line p).2)
    = [json_object [(lit "error", JString (lit "Audio is empty"));
                    (lit "success", JBool false);
                    (lit "type", JString (lit "transcription"))]].
Proof.
  intros line request p err.
  assert (H1 : line ≠ []) by (vm_compute; discriminate).
  assert (H2 : lab_decode line = Some request) by (vm_compute; reflexivity).
  assert (H3 : Request.type request = lit "transcribe") by reflexivity.
  assert (H4 : Request.audio_path request = Some (lit "/tmp/short.raw")) by reflexivity.
  assert (H5 : whisperKit p = Some 7%nat) by reflexivity.
  assert (H6 : Demo.Data_contentsOf (lit "/tmp/short.raw") (world p)
               = (inr [Byte.x01; Byte.x02], 2%nat)) by (vm_compute; reflexivity).
  assert (H7 : Lab.WhisperKit_transcribe 7%nat (spec_samples [Byte.x01; Byte.x02])
                 (spec_options (Request.language request)) 2%nat = (inl err, 3%nat))
    by (vm_compute; reflexivity).
  split; [done|].
  destruct (transcribe_inference_failure _ _ Demo.WhisperKit_init Demo.Data_contentsOf
              Lab.WhisperKit_transcribe Lab.JSON_parse Demo.whitespacesAndNewlines
              line (lit "/tmp/short.raw") request p 7%nat [Byte.x01; Byte.x02]
              err 2%nat 3%nat H1 H2 H3 H4 H5 H6 H7)
    as (_ & Hl & _).
  rewrite Hl. reflexivity.
Defined.

Lemma transcribe_success_reply_witness :
  let line :=
    Demo.json_text [("type", "transcribe"); ("audio_path", "/tmp/speech.raw");
                    ("language", "dv")]%string in
  let request :=
    {| Request.type := lit "transcribe"; Request.model_path := None;
       Request.audio_path := Some (lit "/tmp/speech.raw");
       Request.language := Some (lit "dv") |} in
  let p : Process Demo.Handle Demo.World :=
    {| whisperKit := Some 7%nat; world := 1%nat; trace := [] |} in
  let results :=
    [ {| TranscriptionResult.text := lit " hello" |};
      {| TranscriptionResult.text := lit "world" ++ [10%N] |} ] in
  (line ≠ [] ∧ demo_decode line = Some request
   ∧ Request.type request = lit "transcribe"
   ∧ Request.audio_path request = Some (lit "/tmp/speech.raw")
   ∧ whisperKit p = Some 7%nat
   ∧ Demo.Data_contentsOf (lit "/tmp/speech.raw") (world p)
     = (inr Demo.speech_raw, 2%nat)
   ∧ Demo.WhisperKit_transcribe 7%nat (spec_samples Demo.speech_raw)
       (spec_options (Request.language request)) 2%nat = (inr results, 3%nat))
  ∧ replies (trace (demo_loop_body line p).2)
    = [json_object [(lit "text", JString (lit "hello world"));
                    (lit "success", JBool true);
                    (lit "type", JString (lit "transcription"))]].
Proof.
  intros line request p results.
  assert (H1 : line ≠ []) by (vm_compute; discriminate).
  assert (H2 : demo_decode line = Some request) by (vm_compute; reflexivity).
  assert (H3 : Request.type request = lit "transcribe") by reflexivity.
  assert (H4 : Request.audio_path request = Some (lit "/tmp/speech.raw")) by reflexivity.
  assert (H5 : whisperKit p = Some 7%nat) by reflexivity.
  assert (H6 : Demo.Data_contentsOf (lit "/tmp/speech.raw") (world p)
               = (inr Demo.speech_raw, 2%nat)) by (vm_compute; reflexivity).
  assert (H7 : Demo.WhisperKit_transcribe 7%nat (spec_samples Demo.speech_raw)
                 (spec_options (Request.language request)) 2%nat
               = (inr results, 3%nat)) by (vm_compute; reflexivity).
  split; [done|].
  destruct (transcribe_success_reply _ _ Demo.WhisperKit_init Demo.Data_contentsOf
              Demo.WhisperKit_transcribe Demo.JSON_parse Demo.whitespacesAndNewlines
              line (lit "/tmp/speech.raw") request p 7%nat Demo.speech_raw results
              2%nat 3%nat H1 H2 H3 H4 H5 H6 H7)
    as (Hl & _).
  rewrite Hl. vm_compute. reflexivity.
Defined.

Lemma language_auto_is_absent_witness :
  let request :=
    {| Request.type := lit "transcribe"; Request.model_path := None;
       Request.audio_path := Some (lit "/tmp/speech.raw");
       Request.language := Some (lit "auto") |} in
  let p : Process Demo.Handle Demo.World :=
    {| whisperKit := Some 7%nat; world := 1%nat; trace := [] |} in
  Request.language request = Some (lit "auto")
  ∧ demo_dispatch request p
    = demo_dispatch
        {| Request.type := lit "transcribe"; Request.model_path := None;
           Request.audio_path := Some (lit "/tmp/speech.raw");
           Request.language := None |} p.
Proof.
  intros request p.
  assert (H1 : Request.language request = Some (lit "auto")) by reflexivity.
  split; [exact H1|].
  exact (language_auto_is_absent _ _ Demo.WhisperKit_init Demo.Data_contentsOf
           Demo.WhisperKit_transcribe Demo.whitespacesAndNewlines request p H1).
Defined.

Lemma commands_frame_witness :
  let line := Demo.json_text [("type", "health")]%string in
  let p : Process Demo.Handle Demo.World :=
    {| whisperKit := Some 7%nat; world := 1%nat; trace := [] |} in
  (is_command Demo.JSON_parse (lit "load") line = false
   ∧ is_command Demo.JSON_parse (lit "transcribe") line = false)
  ∧ world (demo_loop_body line p).2 = 1%nat.
Proof.
  intros line p.
  assert (H1 : is_command Demo.JSON_parse (lit "load") line = false)
    by (vm_compute; reflexivity).
  assert (H2 : is_command Demo.JSON_parse (lit "transcribe") line = false)
    by (vm_compute; reflexivity).
  split; [done|].
  destruct (commands_frame _ _ Demo.WhisperKit_init Demo.Data_contentsOf
              Demo.WhisperKit_transcribe Demo.JSON_parse Demo.whitespacesAndNewlines
              line p) as (_ & Hframe).
  destruct (Hframe H1 H2) as (_ & Hw). exact Hw.
Defined.

Lemma reply_type_follows_request_witness :
  let line := Demo.json_text [("type", "restart")]%string in
  let p := initial Demo.Handle 0%nat in
  line ≠ []
  ∧ ∃ json, replies (events_since p (demo_loop_body line p).2) = [json]
            ∧ json !! lit "type" = Some (JString (lit "error")).
Proof.
  intros line p.
  assert (H1 : line ≠ []) by (vm_compute; discriminate).
  split; [exact H1|].
  destruct (reply_type_follows_request _ _ Demo.WhisperKit_init Demo.Data_contentsOf
              Demo.WhisperKit_transcribe Demo.JSON_parse Demo.whitespacesAndNewlines
              line p H1) as (json & Hr & Hty).
  exists json. split; [exact Hr|]. rewrite Hty. vm_compute. reflexivity.
Defined.

Lemma unload_then_transcribe_witness :
  let unloadLine := Demo.json_text [("type", "unload")]%string in
  let unloadRequest :=
    {| Request.type := lit "unload"; Request.model_path := None;
       Request.audio_path := None; Request.language := None |} in
  let line :=
    Demo.json_text [("type", "transcribe"); ("audio_path", "/tmp/speech.raw")]%string in
  let request :=
    {| Request.type := lit "transcribe"; Request.model_path := None;
       Request.audio_path := Some (lit "/tmp/speech.raw");
       Request.language := None |} in
  let p : Process Demo.Handle Demo.World :=
    {| whisperKit := Some 7%nat; world := 1%nat; trace := [] |} in
  (unloadLine ≠ [] ∧ demo_decode unloadLine = Some unloadRequest
   ∧ Request.type unloadRequest = lit "unload"
   ∧ line ≠ [] ∧ demo_decode line = Some request
   ∧ Request.type request = lit "transcribe"
   ∧ Request.audio_path request = Some (lit "/tmp/speech.raw"))
  ∧ world (demo_run_lines [unloadLine; line] p).2 = 1%nat.
Proof.
  intros unloadLine unloadRequest line request p.
  assert (H1 : unloadLine ≠ []) by (vm_compute; discriminate).
  assert (H2 : demo_decode unloadLine = Some unloadRequest) by (vm_compute; reflexivity).
  assert (H3 : Request.type unloadRequest = lit "unload") by reflexivity.
  assert (H4 : line ≠ []) by (vm_compute; discriminate).
  assert (H5 : demo_decode line = Some request) by (vm_compute; reflexivity).
  assert (H6 : Request.type request = lit "transcribe") by reflexivity.
  assert (H7 : Request.audio_path request = Some (lit "/tmp/speech.raw")) by reflexivity.
  split; [done|].
  rewrite (unload_then_transcribe _ _ Demo.WhisperKit_init Demo.Data_contentsOf
             Demo.WhisperKit_transcribe Demo.JSON_parse Demo.whitespacesAndNewlines
             unloadLine line (lit "/tmp/speech.raw") unloadRequest request p
             H1 H2 H3 H4 H5 H6 H7).
  reflexivity.
Defined.
